(** * A CRUD service for users: the handlers of [main.go] and their rules

    The program is a small HTTP service over one table, [users].  Its own
    code is the handlers of [/api/users] and [isValidEmail]; everything
    else is a call into a library: [regexp], [strconv], [encoding/json],
    [net/http] and [gorm] over PostgreSQL.  Each library is modelled below
    as far as the handlers use it, in a module named after the Go package,
    and the handlers are then transcribed statement by statement.

    Go strings are byte strings: they are [string] here (a list of 8-bit
    [ascii]), and [len] is [String.length]. *)

From Stdlib Require Import String Ascii List ZArith NArith Lia Bool.
From Stdlib Require Import DecimalString DecimalPos DecimalN Permutation.
Import ListNotations.

Open Scope string_scope.
Open Scope list_scope.

Set Warnings "-register-all".

(* ================================================================== *)
(** * Package [regexp] *)
(* ================================================================== *)

Module regexp.

(** The text a regular expression runs over, byte by byte.  Go decodes
    the text into runes first; every class and literal of the pattern of
    this program is ASCII, and no byte of a multi-byte rune is, so the
    byte-wise reading accepts the same strings. *)
Definition text := list ascii.

(** A character class is a list of inclusive ranges, as
    [regexp/syntax] stores it. *)
Definition class := list (ascii * ascii).

(** The operators of [regexp/syntax] that the pattern needs. *)
Inductive Regexp : Type :=
| OpEmptyMatch
| OpBeginText                       (* ^ without the m flag *)
| OpEndText                         (* $ without the m flag *)
| OpLiteral (c : ascii)
| OpCharClass (cl : class)
| OpConcat (r1 r2 : Regexp)
| OpStar (r : Regexp)
| OpPlus (r : Regexp)
| OpRepeat (min : nat) (r : Regexp). (* {min,} *)

Definition code (c : ascii) : N := N_of_ascii c.

Definition inRange (c : ascii) (rg : ascii * ascii) : bool :=
  (code (fst rg) <=? code c)%N && (code c <=? code (snd rg))%N.

Definition inClass (cl : class) (c : ascii) : bool :=
  existsb (inRange c) cl.

(** ** Parsing a pattern *)

Definition isDigit (c : ascii) : bool := inRange c ("0", "9")%char.

Definition isAlnum (c : ascii) : bool :=
  inClass [("0", "9"); ("A", "Z"); ("a", "z")]%char c.

(** A backslash makes the ASCII character after it a literal when that
    character is neither a letter nor a digit; the escapes that start with
    a letter or a digit are not needed. *)
Definition isPunct (c : ascii) : bool :=
  (code c <? 128)%N && negb (isAlnum c).

Definition parseClassChar (s : text) : option (ascii * text) :=
  match s with
  | [] => None
  | c :: t =>
      if Ascii.eqb c "\" then
        match t with
        | e :: t' => if isPunct e then Some (e, t') else None
        | [] => None
        end
      else Some (c, t)
  end.

(** The body of a bracket expression, after the opening bracket.  A
    hyphen is a range only when something other than the closing bracket
    follows it.  A negated class and a class within a class are not
    needed. *)
Fixpoint parseClass (fuel : nat) (s : text) (first : bool) (acc : class)
  : option (class * text) :=
  match fuel with
  | O => None
  | S fuel' =>
      match s with
      | [] => None
      | c :: t =>
          if Ascii.eqb c "]" && negb first then Some (rev acc, t)
          else if Ascii.eqb c "^" && first then None
          else if Ascii.eqb c "[" then None
          else
            match parseClassChar s with
            | None => None
            | Some (lo, t1) =>
                match t1 with
                | h :: c2 :: t2 =>
                    if Ascii.eqb h "-" && negb (Ascii.eqb c2 "]") then
                      match parseClassChar (c2 :: t2) with
                      | None => None
                      | Some (hi, t3) =>
                          if (code hi <? code lo)%N then None
                          else parseClass fuel' t3 false ((lo, hi) :: acc)
                      end
                    else parseClass fuel' t1 false ((lo, lo) :: acc)
                | _ => parseClass fuel' t1 false ((lo, lo) :: acc)
                end
            end
      end
  end.

Fixpoint parseInt (s : text) (acc : nat) : nat * text :=
  match s with
  | c :: t =>
      if isDigit c then parseInt t (10 * acc + (N.to_nat (code c) - 48))
      else (acc, s)
  | [] => (acc, s)
  end.

(** A number has no leading zero. *)
Definition leadingZero (s : text) : bool :=
  match s with
  | c1 :: c2 :: _ => Ascii.eqb c1 "0" && isDigit c2
  | _ => false
  end.

(** [{n,}] after the opening brace, with [n] at most 1000; the bounded
    forms are not needed. *)
Definition parseRepeat (s : text) : option (nat * text) :=
  if leadingZero s then None
  else
    match parseInt s 0 with
    | (n, c1 :: c2 :: t) =>
        if Ascii.eqb c1 "," && Ascii.eqb c2 "}" && (n <=? 1000)%nat
        then Some (n, t) else None
    | _ => None
    end.

Fixpoint concat (l : list Regexp) : Regexp :=
  match l with
  | [] => OpEmptyMatch
  | [r] => r
  | r :: l' => OpConcat r (concat l')
  end.

(** The parser keeps a stack of the pieces read so far; a repetition
    operator applies to the top of the stack and may not follow another
    repetition.  The dot, groups, alternation and [?] are not needed. *)
Fixpoint parse (fuel : nat) (s : text) (stack : list Regexp)
  (lastRepeat : bool) : option Regexp :=
  match fuel with
  | O => None
  | S fuel' =>
      match s with
      | [] => Some (concat (rev stack))
      | c :: t =>
          if Ascii.eqb c "^" then
            parse fuel' t (OpBeginText :: stack) false
          else if Ascii.eqb c "$" then
            parse fuel' t (OpEndText :: stack) false
          else if Ascii.eqb c "[" then
            match parseClass (length t) t true [] with
            | Some (cl, t') => parse fuel' t' (OpCharClass cl :: stack) false
            | None => None
            end
          else if Ascii.eqb c "\" then
            match t with
            | e :: t' =>
                if isPunct e then parse fuel' t' (OpLiteral e :: stack) false
                else None
            | [] => None
            end
          else if Ascii.eqb c "+" then
            match stack with
            | r :: st =>
                if lastRepeat then None
                else parse fuel' t (OpPlus r :: st) true
            | [] => None
            end
          else if Ascii.eqb c "*" then
            match stack with
            | r :: st =>
                if lastRepeat then None
                else parse fuel' t (OpStar r :: st) true
            | [] => None
            end
          else if Ascii.eqb c "{" then
            match t with
            | d :: _ =>
                if isDigit d then
                  match parseRepeat t, stack with
                  | Some (n, t'), r :: st =>
                      if lastRepeat then None
                      else parse fuel' t' (OpRepeat n r :: st) true
                  | _, _ => None
                  end
                else parse fuel' t (OpLiteral c :: stack) false
            | [] => parse fuel' t (OpLiteral c :: stack) false
            end
          else if existsb (Ascii.eqb c) ["."; "("; ")"; "|"; "?"]%char then
            None
          else parse fuel' t (OpLiteral c :: stack) false
      end
  end.

(** [Compile]: [None] is the error result, also for syntax outside the
    fragment above. *)
Definition Compile (expr : string) : option Regexp :=
  let s := list_ascii_of_string expr in
  parse (S (length s)) s [] false.

(** ** Running a pattern *)

(** A backtracking matcher in continuation style.  The flag tells whether
    the current position is the beginning of the text; the continuation
    receives the position after the match. *)
Definition cont := bool -> text -> bool.

Fixpoint loop (step : cont -> cont) (k : cont) (fuel : nat)
  (b : bool) (s : text) : bool :=
  k b s ||
  match fuel with
  | O => false
  | S fuel' =>
      step (fun b' s' =>
              (length s' <? length s)%nat && loop step k fuel' b' s') b s
  end.

Fixpoint times (step : cont -> cont) (n : nat) (k : cont) : cont :=
  match n with
  | O => k
  | S n' => step (times step n' k)
  end.

Fixpoint run (r : Regexp) (k : cont) (b : bool) (s : text) : bool :=
  match r with
  | OpEmptyMatch => k b s
  | OpBeginText => b && k b s
  | OpEndText => match s with [] => k b s | _ :: _ => false end
  | OpLiteral c =>
      match s with
      | x :: t => Ascii.eqb x c && k false t
      | [] => false
      end
  | OpCharClass cl =>
      match s with
      | x :: t => inClass cl x && k false t
      | [] => false
      end
  | OpConcat r1 r2 => run r1 (run r2 k) b s
  | OpStar r1 => loop (run r1) k (length s) b s
  | OpPlus r1 =>
      run r1 (fun b' s' => loop (run r1) k (length s') b' s') b s
  | OpRepeat n r1 =>
      times (run r1) n
        (fun b' s' => loop (run r1) k (length s') b' s') b s
  end.

(** A match may begin at any position of the text. *)
Fixpoint search (re : Regexp) (b : bool) (s : text) : bool :=
  run re (fun _ _ => true) b s ||
  match s with
  | [] => false
  | _ :: t => search re false t
  end.

Definition MatchString (re : Regexp) (s : string) : bool :=
  search re true (list_ascii_of_string s).

(** ** What it means for a pattern to match

    [Matches r b w rest]: [r] matches the word [w], which is followed by
    [rest] in the text and starts at the beginning of the text iff [b]. *)
Definition null (w : text) : bool :=
  match w with [] => true | _ :: _ => false end.

Inductive Matches : Regexp -> bool -> text -> text -> Prop :=
| M_EmptyMatch b rest : Matches OpEmptyMatch b [] rest
| M_BeginText rest : Matches OpBeginText true [] rest
| M_EndText b : Matches OpEndText b [] []
| M_Literal c b rest : Matches (OpLiteral c) b [c] rest
| M_CharClass cl c b rest :
    inClass cl c = true -> Matches (OpCharClass cl) b [c] rest
| M_Concat r1 r2 b w1 w2 rest :
    Matches r1 b w1 (w2 ++ rest) ->
    Matches r2 (b && null w1) w2 rest ->
    Matches (OpConcat r1 r2) b (w1 ++ w2) rest
| M_Star_nil r b rest : Matches (OpStar r) b [] rest
| M_Star_more r b w1 w2 rest :
    Matches r b w1 (w2 ++ rest) ->
    Matches (OpStar r) (b && null w1) w2 rest ->
    Matches (OpStar r) b (w1 ++ w2) rest
| M_Plus r b w1 w2 rest :
    Matches r b w1 (w2 ++ rest) ->
    Matches (OpStar r) (b && null w1) w2 rest ->
    Matches (OpPlus r) b (w1 ++ w2) rest
| M_Repeat_O r b w rest :
    Matches (OpStar r) b w rest -> Matches (OpRepeat 0 r) b w rest
| M_Repeat_S n r b w1 w2 rest :
    Matches r b w1 (w2 ++ rest) ->
    Matches (OpRepeat n r) (b && null w1) w2 rest ->
    Matches (OpRepeat (S n) r) b (w1 ++ w2) rest.

(** The pattern [expr] matches the whole of [s]: the match starts at
    the beginning of the text and nothing follows it. *)
Definition FullMatch (expr : string) (s : string) : Prop :=
  exists re,
    Compile expr = Some re /\ Matches re true (list_ascii_of_string s) [].

End regexp.

(* ================================================================== *)
(** * Package [strconv] *)
(* ================================================================== *)

Module strconv.

Definition digit (c : ascii) : option Z :=
  let n := Z.of_N (N_of_ascii c) in
  if (48 <=? n)%Z && (n <=? 57)%Z then Some (n - 48)%Z else None.

(** Base 10, no underscores; [None] on a byte that is not a digit. *)
Fixpoint digits (s : string) (acc : Z) : option Z :=
  match s with
  | EmptyString => Some acc
  | String c t =>
      match digit c with
      | Some d => digits t (10 * acc + d)%Z
      | None => None
      end
  end.

Definition maxInt : Z := 2 ^ 63 - 1.
Definition minInt : Z := - 2 ^ 63.

(** [Atoi] on a 64-bit platform: an optional sign, then one digit or
    more; [None] stands for the syntax and the range error alike. *)
Definition Atoi (s : string) : option Z :=
  let '(neg, body) :=
    match s with
    | String "-" t => (true, t)
    | String "+" t => (false, t)
    | _ => (false, s)
    end in
  match body with
  | EmptyString => None
  | _ =>
      match digits body 0 with
      | None => None
      | Some n =>
          let v := if neg then (- n)%Z else n in
          if (minInt <=? v)%Z && (v <=? maxInt)%Z then Some v else None
      end
  end.

End strconv.

(* ================================================================== *)
(** * The entity *)
(* ================================================================== *)

(** [ID] is a [uint]: a natural number below [2^64]. *)
Record User : Type := mkUser {
  ID : N;
  Name : string;
  Email : string
}.

(** [var user User]: the zero value. *)
Definition zeroUser : User := {| ID := 0; Name := ""; Email := "" |}.

(* ================================================================== *)
(** * Package [encoding/json] *)
(* ================================================================== *)

Module json.

(** A JSON value as the decoder reads it.  A number keeps its literal
    text, because decoding into an unsigned field parses that text. *)
Inductive Value : Type :=
| Null
| Bool (b : bool)
| Number (literal : string)
| Str (s : string)
| Array (elems : list Value)
| Object (members : list (string * Value)).

(** The request body as [Decode] finds it: the first JSON value of the
    stream, or no value at all (a syntax error, or an empty body). *)
Inductive Stream : Type :=
| Invalid
| Next (v : Value).

Definition maxUint : Z := 2 ^ 64 - 1.

(** [strconv.ParseUint(literal, 10, 64)]: digits only, within range. *)
Definition parseUint (lit : string) : option N :=
  match lit with
  | EmptyString => None
  | _ =>
      match strconv.digits lit 0 with
      | Some n => if (n <=? maxUint)%Z then Some (Z.to_N n) else None
      | None => None
      end
  end.

Definition lower (c : ascii) : ascii :=
  let n := N_of_ascii c in
  if (65 <=? n)%N && (n <=? 90)%N then ascii_of_N (n + 32) else c.

Fixpoint fold (s : string) : string :=
  match s with
  | EmptyString => EmptyString
  | String c t => String (lower c) (fold t)
  end.

(** The fields of [User] by their [json] tags.  A key selects the field
    whose tag it equals, upper and lower case letters taken as the same
    (ASCII keys; the decoder also folds a few non-ASCII letters). *)
Inductive field : Type := F_id | F_name | F_email.

Definition fieldOf (key : string) : option field :=
  let k := fold key in
  if String.eqb k "id" then Some F_id
  else if String.eqb k "name" then Some F_name
  else if String.eqb k "email" then Some F_email
  else None.

(** One member of the object, decoded into the struct.  [null] leaves the
    field as it is, an unknown key is skipped, and a value of the wrong
    kind is an error. *)
Definition setField (u : User) (key : string) (v : Value) : option User :=
  match fieldOf key, v with
  | None, _ => Some u
  | Some _, Null => Some u
  | Some F_id, Number lit =>
      match parseUint lit with
      | Some n => Some {| ID := n; Name := Name u; Email := Email u |}
      | None => None
      end
  | Some F_name, Str s =>
      Some {| ID := ID u; Name := s; Email := Email u |}
  | Some F_email, Str s =>
      Some {| ID := ID u; Name := Name u; Email := s |}
  | Some _, _ => None
  end.

Fixpoint setFields (u : User) (members : list (string * Value))
  : option User :=
  match members with
  | [] => Some u
  | (key, v) :: rest =>
      match setField u key v with
      | Some u' => setFields u' rest
      | None =>
          (* the decoder records the error and goes on; the error is
             what [Decode] returns in the end *)
          None
      end
  end.

(** [json.NewDecoder(body).Decode(&u)]: [None] is [err != nil]. *)
Definition Decode (body : Stream) (u : User) : option User :=
  match body with
  | Invalid => None
  | Next Null => Some u
  | Next (Object members) => setFields u members
  | Next _ => None
  end.

(** What [Encode] writes for a [User], as a JSON value. *)
Definition decimal (n : N) : string :=
  NilZero.string_of_uint (N.to_uint n).

Definition ofUser (u : User) : Value :=
  Object [("id", Number (decimal (ID u)));
          ("name", Str (Name u));
          ("email", Str (Email u))].

Definition ofUsers (l : list User) : Value := Array (map ofUser l).

End json.

(* ================================================================== *)
(** * Package [net/http] *)
(* ================================================================== *)

Module http.

Definition StatusOK : Z := 200.
Definition StatusCreated : Z := 201.
Definition StatusNoContent : Z := 204.
Definition StatusBadRequest : Z := 400.
Definition StatusNotFound : Z := 404.
Definition StatusInternalServerError : Z := 500.

Definition Header := list (string * string).

Definition Del (h : Header) (key : string) : Header :=
  filter (fun kv => negb (String.eqb (fst kv) key)) h.

Definition Set_ (h : Header) (key value : string) : Header :=
  (key, value) :: Del h key.

(** What a handler writes to the body: a line of text, or a JSON value
    followed by a newline as [Encode] writes it. *)
Inductive chunk : Type :=
| Line (s : string)
| JSONLine (v : json.Value).

(** The response under construction.  [sent] is the status line and the
    headers as they left with the first write; [None] until then. *)
Record ResponseWriter : Type := mkW {
  header : Header;
  sent : option (Z * Header);
  body : list chunk
}.

(** The writer a handler starts with. *)
Definition NewRecorder : ResponseWriter :=
  {| header := []; sent := None; body := [] |}.

Definition SetHeader (w : ResponseWriter) (key value : string)
  : ResponseWriter :=
  {| header := Set_ (header w) key value; sent := sent w; body := body w |}.

Definition DelHeader (w : ResponseWriter) (key : string) : ResponseWriter :=
  {| header := Del (header w) key; sent := sent w; body := body w |}.

(** A second [WriteHeader] is ignored. *)
Definition WriteHeader (w : ResponseWriter) (statusCode : Z)
  : ResponseWriter :=
  match sent w with
  | Some _ => w
  | None =>
      {| header := header w;
         sent := Some (statusCode, header w);
         body := body w |}
  end.

(** A write before any [WriteHeader] sends [StatusOK] first. *)
Definition Write (w : ResponseWriter) (c : chunk) : ResponseWriter :=
  let w := WriteHeader w StatusOK in
  {| header := header w; sent := sent w; body := body w ++ [c] |}.

Definition Error (w : ResponseWriter) (error : string) (code : Z)
  : ResponseWriter :=
  let w := DelHeader w "Content-Length" in
  let w := SetHeader w "Content-Type" "text/plain; charset=utf-8" in
  let w := SetHeader w "X-Content-Type-Options" "nosniff" in
  let w := WriteHeader w code in
  Write w (Line error).

(** The status the client sees; a handler that returns without writing
    anything answers [StatusOK]. *)
Definition Status (w : ResponseWriter) : Z :=
  match sent w with
  | Some (code, _) => code
  | None => StatusOK
  end.

End http.

(* ================================================================== *)
(** * Package [gorm], over PostgreSQL *)
(* ================================================================== *)

Module gorm.

Inductive error : Type :=
| ErrRecordNotFound
| ErrDriver.           (* any error the driver or the server reports *)

Record Result : Type := mkResult {
  Error : option error;
  RowsAffected : nat
}.

Definition ok (n : nat) : Result := {| Error := None; RowsAffected := n |}.
Definition failed (e : error) : Result :=
  {| Error := Some e; RowsAffected := 0 |}.

(** The handle and what is behind it: the rows of [users], the last value
    of the sequence that numbers them, and the statements to come that
    the connection will fail to carry out ([true] = that statement
    fails).  Requests are served one after the other. *)
Record DB : Type := mkDB {
  rows : list User;
  seq : N;
  faults : list bool
}.

Definition withRows (db : DB) (l : list User) : DB :=
  {| rows := l; seq := seq db; faults := faults db |}.

Definition withSeq (db : DB) (n : N) : DB :=
  {| rows := rows db; seq := n; faults := faults db |}.

(** One statement goes to the server. *)
Definition statement (db : DB) : bool * DB :=
  match faults db with
  | [] => (false, db)
  | f :: fs => (f, {| rows := rows db; seq := seq db; faults := fs |})
  end.

Definition hasId (id : Z) (u : User) : bool := (Z.of_N (ID u) =? id)%Z.

Definition lookup (l : list User) (id : Z) : option User :=
  find (hasId id) l.

(** [id] is a [bigserial] column: 64-bit signed. *)
Definition maxInt8 : N := 2 ^ 63 - 1.

(** A [text] column takes no NUL byte. *)
Definition hasNUL (s : string) : bool :=
  existsb (Ascii.eqb zero) (list_ascii_of_string s).

Definition storable (u : User) : bool :=
  negb (hasNUL (Name u)) && negb (hasNUL (Email u)).

Definition withID (u : User) (id : N) : User :=
  {| ID := id; Name := Name u; Email := Email u |}.

(** INSERT INTO users.  A zero [ID] is left out of the statement and the
    sequence numbers the row; any other [ID] is inserted as given and
    the sequence stays where it is. *)
Definition insert (db : DB) (value : User) : DB * User * Result :=
  if negb (storable value) then (db, value, failed ErrDriver)
  else if (ID value =? 0)%N then
    let id := (seq db + 1)%N in
    if (maxInt8 <? id)%N then (db, value, failed ErrDriver)
    else
      match lookup (rows db) (Z.of_N id) with
      | Some _ => (withSeq db id, value, failed ErrDriver)
      | None =>
          let u := withID value id in
          (withRows (withSeq db id) (rows db ++ [u]), u, ok 1)
      end
  else if (maxInt8 <? ID value)%N then (db, value, failed ErrDriver)
  else
    match lookup (rows db) (Z.of_N (ID value)) with
    | Some _ => (db, value, failed ErrDriver)
    | None => (withRows db (rows db ++ [value]), value, ok 1)
    end.

(** [db.Find(&users)]: SELECT * FROM users.  The statement has no ORDER
    BY; the list comes in the order of the model's table, which stands
    for whatever order the server chooses. *)
Definition Find (db : DB) : DB * list User * Result :=
  let '(fails, db) := statement db in
  if fails then (db, [], failed ErrDriver)
  else (db, rows db, ok (length (rows db))).

(** [db.First(&dest, id)]: SELECT ... WHERE id = $1 ORDER BY id LIMIT 1. *)
Definition First (db : DB) (dest : User) (id : Z) : DB * User * Result :=
  let '(fails, db) := statement db in
  if fails then (db, dest, failed ErrDriver)
  else
    match lookup (rows db) id with
    | Some u => (db, u, ok 1)
    | None => (db, dest, failed ErrRecordNotFound)
    end.

(** [db.Create(&value)]: the row comes back with its [ID]. *)
Definition Create (db : DB) (value : User) : DB * User * Result :=
  let '(fails, db) := statement db in
  if fails then (db, value, failed ErrDriver) else insert db value.

Definition replace (value : User) (u : User) : User :=
  if (ID u =? ID value)%N then value else u.

(** [db.Save(&value)]: with a zero [ID] it is [Create]; otherwise UPDATE
    all columns WHERE id = ID, and when that touches no row, INSERT. *)
Definition Save (db : DB) (value : User) : DB * User * Result :=
  if (ID value =? 0)%N then Create db value
  else
    let '(fails, db) := statement db in
    if fails then (db, value, failed ErrDriver)
    else if negb (storable value) then (db, value, failed ErrDriver)
    else
      match lookup (rows db) (Z.of_N (ID value)) with
      | Some _ => (withRows db (map (replace value) (rows db)), value, ok 1)
      | None =>
          let '(fails, db) := statement db in
          if fails then (db, value, failed ErrDriver) else insert db value
      end.

(** [db.Delete(&User{}, id)]: DELETE FROM users WHERE id = $1.  Deleting
    no row is not an error: the result says zero rows affected. *)
Definition Delete (db : DB) (id : Z) : DB * Result :=
  let '(fails, db) := statement db in
  if fails then (db, failed ErrDriver)
  else
    let kept := filter (fun u => negb (hasId id u)) (rows db) in
    (withRows db kept, ok (length (rows db) - length kept)).

End gorm.

(* ================================================================== *)
(** * [main.go] *)
(* ================================================================== *)

(** A request as the handlers read it: the variables of the route
    ([mux.Vars]) and the body. *)
Record Request : Type := mkRequest {
  Vars : string -> string;
  Body : json.Stream
}.

(** The error bodies are written in the source as raw string literals,
    [{"error": "..."}]. *)
Definition quote (s : string) : string :=
  String (ascii_of_nat 34) (s ++ String (ascii_of_nat 34) "").

Definition errorBody (message : string) : string :=
  "{" ++ quote "error" ++ ": " ++ quote message ++ "}".

Definition getUsers (db : gorm.DB) (w : http.ResponseWriter) (r : Request)
  : gorm.DB * http.ResponseWriter :=
  let '(db, users, result) := gorm.Find db in
  match gorm.Error result with
  | Some _ =>
      (db, http.Error w (errorBody "Failed to retrieve users")
             http.StatusInternalServerError)
  | None =>
      let w := http.SetHeader w "Content-Type" "application/json" in
      (db, http.Write w (http.JSONLine (json.ofUsers users)))
  end.

Definition emailPattern : string :=
  "^[a-zA-Z0-9._%+-]+@[a-zA-Z0-9.-]+\.[a-zA-Z]{2,}$".

(** [regexp.MustCompile] panics where [Compile] returns an error.  The
    pattern compiles ([emailPattern_compiles] below), so that branch is
    never taken. *)
Definition isValidEmail (email : string) : bool :=
  match regexp.Compile emailPattern with
  | Some re => regexp.MatchString re email
  | None => false
  end.

Arguments isValidEmail : simpl never.

(** The pattern as [Compile] reads it. *)
Definition emailRegexp : regexp.Regexp :=
  let localClass :=
    [("a", "z"); ("A", "Z"); ("0", "9"); (".", "."); ("_", "_");
     ("%", "%"); ("+", "+"); ("-", "-")]%char in
  let domainClass :=
    [("a", "z"); ("A", "Z"); ("0", "9"); (".", "."); ("-", "-")]%char in
  let letters := [("a", "z"); ("A", "Z")]%char in
  regexp.concat
    [regexp.OpBeginText;
     regexp.OpPlus (regexp.OpCharClass localClass);
     regexp.OpLiteral "@";
     regexp.OpPlus (regexp.OpCharClass domainClass);
     regexp.OpLiteral ".";
     regexp.OpRepeat 2 (regexp.OpCharClass letters);
     regexp.OpEndText].

Definition createUser (db : gorm.DB) (w : http.ResponseWriter) (r : Request)
  : gorm.DB * http.ResponseWriter :=
  match json.Decode (Body r) zeroUser with
  | None =>
      (db, http.Error w (errorBody "Invalid request payload")
             http.StatusBadRequest)
  | Some user =>
      if String.eqb (Name user) "" then
        (db, http.Error w (errorBody "Name is required")
               http.StatusBadRequest)
      else if String.eqb (Email user) "" || negb (isValidEmail (Email user))
      then
        (db, http.Error w (errorBody "Invalid email format")
               http.StatusBadRequest)
      else
        let '(db, user, result) := gorm.Create db user in
        match gorm.Error result with
        | Some _ =>
            (db, http.Error w (errorBody "Failed to create user")
                   http.StatusInternalServerError)
        | None =>
            let w := http.SetHeader w "Content-Type" "application/json" in
            let w := http.WriteHeader w http.StatusCreated in
            (db, http.Write w (http.JSONLine (json.ofUser user)))
        end
  end.

Definition updateUser (db : gorm.DB) (w : http.ResponseWriter) (r : Request)
  : gorm.DB * http.ResponseWriter :=
  match strconv.Atoi (Vars r "id") with
  | None =>
      (db, http.Error w (errorBody "Invalid user ID") http.StatusBadRequest)
  | Some id =>
      let '(db, user, result) := gorm.First db zeroUser id in
      match gorm.Error result with
      | Some _ =>
          (db, http.Error w (errorBody "User not found")
                 http.StatusNotFound)
      | None =>
          match json.Decode (Body r) zeroUser with
          | None =>
              (db, http.Error w (errorBody "Invalid request payload")
                     http.StatusBadRequest)
          | Some updateData =>
              if negb (String.eqb (Name updateData) "")
                 && (String.length (Name updateData) <? 3)%nat
              then
                (db, http.Error w
                       (errorBody "Name must be at least 3 characters")
                       http.StatusBadRequest)
              else if negb (String.eqb (Email updateData) "")
                      && negb (isValidEmail (Email updateData))
              then
                (db, http.Error w (errorBody "Invalid email format")
                       http.StatusBadRequest)
              else
                (* Only update fields that are provided *)
                let user :=
                  if negb (String.eqb (Name updateData) "")
                  then {| ID := ID user; Name := Name updateData;
                          Email := Email user |}
                  else user in
                let user :=
                  if negb (String.eqb (Email updateData) "")
                  then {| ID := ID user; Name := Name user;
                          Email := Email updateData |}
                  else user in
                (* the result of Save is dropped *)
                let '(db, user, _) := gorm.Save db user in
                let w := http.SetHeader w "Content-Type" "application/json" in
                (db, http.Write w (http.JSONLine (json.ofUser user)))
          end
      end
  end.

Definition deleteUser (db : gorm.DB) (w : http.ResponseWriter) (r : Request)
  : gorm.DB * http.ResponseWriter :=
  match strconv.Atoi (Vars r "id") with
  | None =>
      (db, http.Error w (errorBody "Invalid user ID") http.StatusBadRequest)
  | Some id =>
      let '(db, result) := gorm.Delete db id in
      match gorm.Error result with
      | Some _ =>
          (db, http.Error w (errorBody "Failed to delete user")
                 http.StatusInternalServerError)
      | None => (db, http.WriteHeader w http.StatusNoContent)
      end
  end.

(* ================================================================== *)
(** * The vocabulary of the specification *)
(* ================================================================== *)

(** ** Section 3 on the shape of an email: letters, digits and [._%+-] in
    the local part, letters, digits, [.] and [-] in the domain, and a
    top-level domain of two letters or more. *)

Definition between (lo hi c : ascii) : bool :=
  (N_of_ascii lo <=? N_of_ascii c)%N && (N_of_ascii c <=? N_of_ascii hi)%N.

Definition isLetter (c : ascii) : bool :=
  between "a" "z" c || between "A" "Z" c.

Definition isDigit (c : ascii) : bool := between "0" "9" c.

Definition localChar (c : ascii) : bool :=
  isLetter c || isDigit c ||
  existsb (Ascii.eqb c) ["."; "_"; "%"; "+"; "-"]%char.

Definition domainChar (c : ascii) : bool :=
  isLetter c || isDigit c || existsb (Ascii.eqb c) ["."; "-"]%char.

Definition all (p : ascii -> bool) (s : string) : bool :=
  forallb p (list_ascii_of_string s).

Definition EmailShape (s : string) : Prop :=
  exists local domain tld : string,
    s = (local ++ "@" ++ domain ++ "." ++ tld)%string /\
    local <> "" /\ all localChar local = true /\
    domain <> "" /\ all domainChar domain = true /\
    2 <= String.length tld /\ all isLetter tld = true.

(** The same shape on the bytes of the string. *)
Definition shape (w : list ascii) : Prop :=
  exists l d t : list ascii,
    w = l ++ "@"%char :: d ++ "."%char :: t /\
    l <> [] /\ forallb localChar l = true /\
    d <> [] /\ forallb domainChar d = true /\
    2 <= length t /\ forallb isLetter t = true.

(** [s] contains the byte [c]. *)
Definition contains (s : string) (c : ascii) : Prop :=
  In c (list_ascii_of_string s).

(** [s] ends in a dot followed by two letters or more. *)
Definition hasLetterSuffix (s : string) : Prop :=
  exists front tld : string,
    s = (front ++ "." ++ tld)%string /\
    2 <= String.length tld /\ all isLetter tld = true.

(** ** Section 4.3, the id of a route

    An id is numeric: decimal digits, one or more, after an optional
    sign. *)
Definition numeric (s : string) : bool :=
  let body :=
    match s with
    | String "-" t => t
    | String "+" t => t
    | _ => s
    end in
  negb (String.eqb body "") && all isDigit body.

(** ** Section 4.1, the rules on the fields *)

(** The create rules reject the body: it does not decode, or the name is
    empty, or the email is empty or does not match. *)
Definition createRejected (r : Request) : Prop :=
  match json.Decode (Body r) zeroUser with
  | None => True
  | Some user =>
      Name user = "" \/ Email user = "" \/ isValidEmail (Email user) = false
  end.

(** The body omits the field [f]: no member of the object selects it. *)
Definition omits (members : list (string * json.Value)) (f : json.field)
  : Prop :=
  forall key v, In (key, v) members -> json.fieldOf key <> Some f.

(** The update rules, field by field.  The length of a name is [len], a
    number of bytes. *)
Definition shortName (u : User) : Prop :=
  Name u <> "" /\ String.length (Name u) < 3.

Definition badEmail (u : User) : Prop :=
  Email u <> "" /\ isValidEmail (Email u) = false.

(** The stored record with the supplied fields merged in: an empty field
    leaves the stored one. *)
Definition merge (stored supplied : User) : User :=
  {| ID := ID stored;
     Name := if String.eqb (Name supplied) "" then Name stored
             else Name supplied;
     Email := if String.eqb (Email supplied) "" then Email stored
              else Email supplied |}.

(** ** Section 3, the invariant on rows *)

Definition validRow (u : User) : Prop :=
  Email u <> "" /\ isValidEmail (Email u) = true.

Definition Invariant (db : gorm.DB) : Prop := Forall validRow (gorm.rows db).

(** ** Section 6, the responses *)

(** An error answer: the status [code] and the body [{"error": message}]. *)
Definition errorResponse (message : string) (code : Z)
  : http.ResponseWriter :=
  http.Error http.NewRecorder (errorBody message) code.

(** A JSON answer: the status [code], the JSON content type and the
    value. *)
Definition jsonResponse (code : Z) (v : json.Value) : http.ResponseWriter :=
  let h := [("Content-Type", "application/json")] in
  {| http.header := h;
     http.sent := Some (code, h);
     http.body := [http.JSONLine v] |}.

(** An answer with a status and nothing else. *)
Definition emptyResponse (code : Z) : http.ResponseWriter :=
  {| http.header := []; http.sent := Some (code, []); http.body := [] |}.

(** ** Sample data: the examples of Section 8 *)

Definition ann : User :=
  {| ID := 1; Name := "Ann"; Email := "ann@example.com" |}.

(** The table after migration, and with Ann in it. *)
Definition emptyDB : gorm.DB :=
  {| gorm.rows := []; gorm.seq := 0; gorm.faults := [] |}.

Definition annDB : gorm.DB :=
  {| gorm.rows := [ann]; gorm.seq := 1; gorm.faults := [] |}.

(** A request on [/api/users/{id}] or on [/api/users] ([id] empty). *)
Definition request (id : string) (body : json.Stream) : Request :=
  {| Vars := fun key => if String.eqb key "id" then id else "";
     Body := body |}.

Definition object (members : list (string * json.Value)) : json.Stream :=
  json.Next (json.Object members).

(** Ann's row, with the connection about to fail on the second statement
    from now. *)
Definition flakyDB : gorm.DB :=
  {| gorm.rows := [ann]; gorm.seq := 1; gorm.faults := [false; true] |}.

Definition bob : User :=
  {| ID := 1; Name := "Bob"; Email := "ann@example.com" |}.

(** A name with a NUL byte in it, [Bob\u0000] in a JSON body. *)
Definition bobNUL : string := "Bob" ++ String zero "".

(* ================================================================== *)
(** * The earlier revision of the handlers *)
(* ================================================================== *)

(** The repository also holds the revision of [main.go] from before the
    validation was added.  Its [getUsers] and [deleteUser] are the ones
    above; its [createUser] and [updateUser] are these. *)
Module rev0.

Definition createUser (db : gorm.DB) (w : http.ResponseWriter) (r : Request)
  : gorm.DB * http.ResponseWriter :=
  match json.Decode (Body r) zeroUser with
  | None =>
      (db, http.Error w (errorBody "Invalid request payload")
             http.StatusBadRequest)
  | Some user =>
      let '(db, user, result) := gorm.Create db user in
      match gorm.Error result with
      | Some _ =>
          (db, http.Error w (errorBody "Failed to create user")
                 http.StatusInternalServerError)
      | None =>
          let w := http.SetHeader w "Content-Type" "application/json" in
          let w := http.WriteHeader w http.StatusCreated in
          (db, http.Write w (http.JSONLine (json.ofUser user)))
      end
  end.

(** The body is decoded into the fetched record itself. *)
Definition updateUser (db : gorm.DB) (w : http.ResponseWriter) (r : Request)
  : gorm.DB * http.ResponseWriter :=
  match strconv.Atoi (Vars r "id") with
  | None =>
      (db, http.Error w (errorBody "Invalid user ID") http.StatusBadRequest)
  | Some id =>
      let '(db, user, result) := gorm.First db zeroUser id in
      match gorm.Error result with
      | Some _ =>
          (db, http.Error w (errorBody "User not found")
                 http.StatusNotFound)
      | None =>
          match json.Decode (Body r) user with
          | None =>
              (db, http.Error w (errorBody "Invalid request payload")
                     http.StatusBadRequest)
          | Some user =>
              let '(db, user, _) := gorm.Save db user in
              let w := http.SetHeader w "Content-Type" "application/json" in
              (db, http.Write w (http.JSONLine (json.ofUser user)))
          end
      end
  end.

End rev0.

(* ================================================================== *)
(** * The routes of [main] *)
(* ================================================================== *)

(** The routes that [main] registers under [/api/users], by method and
    path, and the handler of each. *)
Inductive Route : Type :=
| GET_users
| POST_users
| PUT_users_id
| DELETE_users_id.

Definition HandleFunc (route : Route)
  : gorm.DB -> http.ResponseWriter -> Request ->
    gorm.DB * http.ResponseWriter :=
  match route with
  | GET_users => getUsers
  | POST_users => createUser
  | PUT_users_id => updateUser
  | DELETE_users_id => deleteUser
  end.

(** Requests served one after the other on the shared handle, each with
    a writer of its own. *)
Fixpoint serve (db : gorm.DB) (calls : list (Route * Request))
  : gorm.DB * list http.ResponseWriter :=
  match calls with
  | [] => (db, [])
  | (route, r) :: rest =>
      let '(db1, w) := HandleFunc route db http.NewRecorder r in
      let '(db2, ws) := serve db1 rest in
      (db2, w :: ws)
  end.

(* ================================================================== *)
(** * More vocabulary: what the code itself shows *)
(* ================================================================== *)

(** The bytes an accepted email is made of. *)
Definition allowedByte (c : ascii) : bool := localChar c || Ascii.eqb c "@".

Definition occurrences (c : ascii) (s : string) : nat :=
  count_occ ascii_dec (list_ascii_of_string s) c.

(** ASCII upper case letters turned to lower case. *)
Definition lowercase (s : string) : string := json.fold s.

(** The primary key: no two rows with one [ID], and no row with [ID] 0
    (the sequence starts at 1 and a zero [ID] in a body is numbered by
    the sequence). *)
Definition keysOK (l : list User) : Prop :=
  NoDup (map ID l) /\ Forall (fun u => ID u <> 0%N) l.

(** The next [n] statements go through. *)
Definition healthy (n : nat) (db : gorm.DB) : Prop :=
  forallb negb (firstn n (gorm.faults db)) = true.

(** The content type that left with the answer. *)
Definition contentType (w : http.ResponseWriter) : option string :=
  match http.sent w with
  | Some (_, h) =>
      option_map snd (find (fun kv => String.eqb (fst kv) "Content-Type") h)
  | None => None
  end.

(** Decoding the same members into two records: a field ends up the same
    in both, or is in each what it was. *)
Definition tracks {A} (f : User -> A) (u1 u2 u1' u2' : User) : Prop :=
  f u1' = f u2' \/ (f u1' = f u1 /\ f u2' = f u2).

(** The three kinds of answer of the handlers. *)
Inductive Answer (w : http.ResponseWriter) : Prop :=
| AnError message :
    w = errorResponse message (http.Status w) ->
    In (http.Status w)
       [http.StatusBadRequest; http.StatusNotFound;
        http.StatusInternalServerError] ->
    contentType w = Some "text/plain; charset=utf-8" ->
    http.body w = [http.Line (errorBody message)] ->
    Answer w
| AJSON v :
    w = jsonResponse (http.Status w) v ->
    In (http.Status w) [http.StatusOK; http.StatusCreated] ->
    contentType w = Some "application/json" ->
    Answer w
| ANoContent :
    w = emptyResponse http.StatusNoContent ->
    contentType w = None ->
    Answer w.

(** ** Characters and bytes

    Go's [len] counts bytes.  A character is a UTF-8 encoded code point:
    a byte of the form 10xxxxxx continues a character, every other byte
    starts one. *)
Definition continuation (c : ascii) : bool :=
  (128 <=? N_of_ascii c)%N && (N_of_ascii c <? 192)%N.

Definition characters (s : string) : nat :=
  length (filter (fun c => negb (continuation c)) (list_ascii_of_string s)).

Definition bytes (l : list nat) : string :=
  string_of_list_ascii (map ascii_of_nat l).

(** Two characters in four bytes (e with acute, o with diaeresis), and one
    character in three bytes (the euro sign). *)
Definition twoCharacters : string := bytes [195; 169; 195; 182].
Definition oneCharacter : string := bytes [226; 130; 172].

(** ** The number that a numeric id denotes, and whether it fits [int] *)

Fixpoint decimalValue (s : string) (acc : Z) : Z :=
  match s with
  | EmptyString => acc
  | String c t => decimalValue t (10 * acc + (Z.of_N (N_of_ascii c) - 48))%Z
  end.

Definition idValue (s : string) : Z :=
  match s with
  | String "-" t => (- decimalValue t 0)%Z
  | String "+" t => decimalValue t 0
  | _ => decimalValue s 0
  end.

Definition fitsInt (s : string) : bool :=
  (strconv.minInt <=? idValue s)%Z && (idValue s <=? strconv.maxInt)%Z.

(** The first number beyond [int]: [2^63]. *)
Definition beyondInt : string := "9223372036854775808".

(* ================================================================== *)
(** * The matcher agrees with the meaning of patterns *)
(* ================================================================== *)

Module regexp_facts.
Import regexp.

Lemma null_app (w1 w2 : text) : null (w1 ++ w2) = null w1 && null w2.
Proof. destruct w1; reflexivity. Qed.

Lemma null_true (w : text) : null w = true -> w = [].
Proof. destruct w; [reflexivity | discriminate]. Qed.

Section Iteration.
Variable step : cont -> cont.
Variable r : Regexp.

Hypothesis step_sound :
  forall k b s, step k b s = true ->
    exists w rest,
      s = w ++ rest /\ Matches r b w rest /\ k (b && null w) rest = true.

Hypothesis step_complete :
  forall b w rest, Matches r b w rest ->
    forall k, k (b && null w) rest = true -> step k b (w ++ rest) = true.

Lemma loop_sound fuel : forall k b s,
  loop step k fuel b s = true ->
  exists w rest,
    s = w ++ rest /\ Matches (OpStar r) b w rest /\
    k (b && null w) rest = true.
Proof.
  induction fuel as [|fuel IH]; intros k b s H; simpl in H;
    apply orb_true_iff in H; destruct H as [H | H].
  - exists [], s. rewrite andb_true_r. repeat split; [constructor | exact H].
  - discriminate.
  - exists [], s. rewrite andb_true_r. repeat split; [constructor | exact H].
  - apply step_sound in H. destruct H as (w1 & rest1 & -> & Hr & Hk).
    apply andb_true_iff in Hk. destruct Hk as [_ Hk].
    apply IH in Hk. destruct Hk as (w2 & rest & -> & Hs & Hk).
    exists (w1 ++ w2), rest. rewrite app_assoc. split; [reflexivity|].
    split; [econstructor; eassumption|].
    now rewrite null_app, andb_assoc.
Qed.

Lemma loop_complete rs b w rest :
  Matches rs b w rest -> rs = OpStar r ->
  forall k fuel, length (w ++ rest) <= fuel ->
    k (b && null w) rest = true -> loop step k fuel b (w ++ rest) = true.
Proof.
  induction 1 as [ | | | | | | r0 b rest
                 | r0 b w1 w2 rest H1 _ H2 IH2 | | | ];
    intros E k fuel Hlen Hk; try discriminate E.
  - rewrite andb_true_r in Hk.
    destruct fuel; simpl; rewrite Hk; reflexivity.
  - injection E as ->.
    destruct w1 as [|c w1].
    + simpl in *. rewrite andb_true_r in IH2.
      apply IH2; [reflexivity | assumption | assumption].
    + destruct fuel as [|fuel]; [simpl in Hlen; lia|].
      cbn [loop]. apply orb_true_iff. right.
      rewrite <- app_assoc. apply step_complete; [exact H1|].
      apply andb_true_iff. split.
      * apply Nat.ltb_lt. simpl. rewrite !length_app. lia.
      * apply IH2; [reflexivity | |].
        -- rewrite <- app_assoc in Hlen. simpl in Hlen.
           rewrite !length_app in Hlen. rewrite length_app. lia.
        -- now rewrite null_app, andb_assoc in Hk.
Qed.

Lemma times_sound n : forall k b s,
  times step n (fun b' s' => loop step k (length s') b' s') b s = true ->
  exists w rest,
    s = w ++ rest /\ Matches (OpRepeat n r) b w rest /\
    k (b && null w) rest = true.
Proof.
  induction n as [|n IH]; intros k b s H; simpl in H.
  - apply loop_sound in H. destruct H as (w & rest & -> & Hs & Hk).
    exists w, rest. repeat split; [constructor; exact Hs | exact Hk].
  - apply step_sound in H. destruct H as (w1 & rest1 & -> & Hr & Hk).
    apply IH in Hk. destruct Hk as (w2 & rest & -> & Hs & Hk).
    exists (w1 ++ w2), rest. rewrite app_assoc. split; [reflexivity|].
    split; [econstructor; eassumption|].
    now rewrite null_app, andb_assoc.
Qed.

Lemma times_complete rs b w rest :
  Matches rs b w rest -> forall n, rs = OpRepeat n r ->
  forall k, k (b && null w) rest = true ->
    times step n (fun b' s' => loop step k (length s') b' s')
      b (w ++ rest) = true.
Proof.
  induction 1 as [ | | | | | | | | | r0 b w rest Hs _
                 | n0 r0 b w1 w2 rest H1 _ H2 IH2 ];
    intros n E k Hk; try discriminate E.
  - injection E as <- ->. simpl.
    eapply loop_complete; [exact Hs | reflexivity | lia | exact Hk].
  - injection E as <- ->. simpl.
    rewrite <- app_assoc. apply step_complete; [exact H1|].
    apply IH2; [reflexivity|].
    now rewrite null_app, andb_assoc in Hk.
Qed.

End Iteration.

Lemma run_sound (r : Regexp) : forall k b s,
  run r k b s = true ->
  exists w rest,
    s = w ++ rest /\ Matches r b w rest /\ k (b && null w) rest = true.
Proof.
  induction r as [ | | | c | cl | r1 IH1 r2 IH2 | r IH | r IH | n r IH ];
    intros k b s H; simpl in H.
  - exists [], s. rewrite andb_true_r. repeat split; [constructor | exact H].
  - apply andb_true_iff in H. destruct H as [-> H].
    exists [], s. repeat split; [constructor | exact H].
  - destruct s; [|discriminate].
    exists [], []. rewrite andb_true_r. repeat split; [constructor | exact H].
  - destruct s as [|x t]; [discriminate|].
    apply andb_true_iff in H. destruct H as [Hx H].
    apply Ascii.eqb_eq in Hx. subst x.
    exists [c], t. rewrite andb_false_r. repeat split; [constructor | exact H].
  - destruct s as [|x t]; [discriminate|].
    apply andb_true_iff in H. destruct H as [Hx H].
    exists [x], t. rewrite andb_false_r.
    repeat split; [constructor; exact Hx | exact H].
  - apply IH1 in H. destruct H as (w1 & rest1 & -> & Hr1 & H).
    apply IH2 in H. destruct H as (w2 & rest & -> & Hr2 & H).
    exists (w1 ++ w2), rest. rewrite app_assoc. split; [reflexivity|].
    split; [econstructor; eassumption|].
    now rewrite null_app, andb_assoc.
  - eapply loop_sound; [exact IH | exact H].
  - apply IH in H. destruct H as (w1 & rest1 & -> & Hr & H).
    eapply loop_sound in H; [|exact IH].
    destruct H as (w2 & rest & -> & Hs & H).
    exists (w1 ++ w2), rest. rewrite app_assoc. split; [reflexivity|].
    split; [econstructor; eassumption|].
    now rewrite null_app, andb_assoc.
  - eapply times_sound; [exact IH | exact H].
Qed.

Lemma run_complete (r : Regexp) : forall b w rest,
  Matches r b w rest ->
  forall k, k (b && null w) rest = true -> run r k b (w ++ rest) = true.
Proof.
  induction r as [ | | | c | cl | r1 IH1 r2 IH2 | r IH | r IH | n r IH ];
    intros b w rest M k Hk.
  - inversion M; subst. simpl in *. now rewrite andb_true_r in Hk.
  - inversion M; subst. exact Hk.
  - inversion M; subst. simpl in *. now rewrite andb_true_r in Hk.
  - inversion M; subst. simpl in *.
    rewrite Ascii.eqb_refl. now rewrite andb_false_r in Hk.
  - inversion M; subst. simpl in *.
    rewrite andb_false_r in Hk.
    match goal with Hc : inClass _ _ = true |- _ => now rewrite Hc end.
  - inversion M; subst. simpl. rewrite <- app_assoc.
    apply IH1; [assumption|]. apply IH2; [assumption|].
    now rewrite null_app, andb_assoc in Hk.
  - simpl. eapply loop_complete; [exact IH | exact M | reflexivity | lia |
                                  exact Hk].
  - inversion M; subst. simpl. rewrite <- app_assoc.
    apply IH; [assumption|].
    eapply loop_complete; [exact IH | eassumption | reflexivity | lia |].
    now rewrite null_app, andb_assoc in Hk.
  - simpl. eapply times_complete; [exact IH | exact M | reflexivity |
                                   exact Hk].
Qed.

End regexp_facts.

(* ================================================================== *)
(** * [isValidEmail] *)
(* ================================================================== *)

Module email_facts.
Import regexp regexp_facts.

Lemma search_iff (re : Regexp) (s : text) : forall b,
  search re b s = true <->
  exists front w rest,
    s = front ++ w ++ rest /\ Matches re (b && null front) w rest.
Proof.
  induction s as [|c t IH]; intros b; simpl; rewrite orb_true_iff; split.
  - intros [H | H]; [|discriminate].
    apply run_sound in H. destruct H as (w & rest & E & M & _).
    exists [], w, rest. rewrite andb_true_r. auto.
  - intros (front & w & rest & E & M). left.
    destruct front; [|discriminate]. simpl in E. rewrite E.
    rewrite andb_true_r in M. eapply run_complete; eauto.
  - intros [H | H].
    + apply run_sound in H. destruct H as (w & rest & E & M & _).
      exists [], w, rest. rewrite andb_true_r. auto.
    + apply IH in H. destruct H as (front & w & rest & -> & M).
      exists (c :: front), w, rest. now rewrite andb_false_r.
  - intros (front & w & rest & E & M).
    destruct front as [|c' front]; simpl in E.
    + left. rewrite andb_true_r in M. rewrite E.
      eapply run_complete; eauto.
    + right. injection E as -> ->. apply IH.
      exists front, w, rest. now rewrite andb_false_r in M.
Qed.

(** *** Inversion of [Matches], operator by operator *)

Lemma concat_inv r1 r2 b w rest :
  Matches (OpConcat r1 r2) b w rest <->
  exists w1 w2,
    w = w1 ++ w2 /\ Matches r1 b w1 (w2 ++ rest) /\
    Matches r2 (b && null w1) w2 rest.
Proof.
  split.
  - intros M. inversion M; subst. eauto.
  - intros (w1 & w2 & -> & M1 & M2). now constructor.
Qed.

Lemma begin_inv b w rest :
  Matches OpBeginText b w rest <-> b = true /\ w = [].
Proof.
  split.
  - intros M. inversion M; subst. auto.
  - intros [-> ->]. constructor.
Qed.

Lemma end_inv b w rest :
  Matches OpEndText b w rest <-> w = [] /\ rest = [].
Proof.
  split.
  - intros M. inversion M; subst. auto.
  - intros [-> ->]. constructor.
Qed.

Lemma literal_inv c b w rest : Matches (OpLiteral c) b w rest <-> w = [c].
Proof.
  split.
  - intros M. inversion M; subst. auto.
  - intros ->. constructor.
Qed.

Lemma star_class cl w : forall b rest,
  Matches (OpStar (OpCharClass cl)) b w rest <->
  forallb (inClass cl) w = true.
Proof.
  intros b rest. split.
  - intros M. remember (OpStar (OpCharClass cl)) as rs eqn:E.
    induction M; try discriminate E.
    + reflexivity.
    + injection E as ->. inversion M1; subst. simpl.
      apply andb_true_iff. auto.
  - revert b. induction w as [|c w IH]; intros b H.
    + constructor.
    + simpl in H. apply andb_true_iff in H. destruct H as [Hc Hw].
      change (c :: w) with ([c] ++ w). constructor.
      * now constructor.
      * now apply IH.
Qed.

Lemma plus_class cl w b rest :
  Matches (OpPlus (OpCharClass cl)) b w rest <->
  w <> [] /\ forallb (inClass cl) w = true.
Proof.
  split.
  - intros M. inversion M; subst.
    match goal with
    | H1 : Matches (OpCharClass _) _ _ _, H2 : Matches (OpStar _) _ _ _ |- _ =>
        inversion H1; subst; apply star_class in H2
    end.
    split; [discriminate|]. simpl. apply andb_true_iff. auto.
  - intros [Hne H]. destruct w as [|c w]; [contradiction|].
    simpl in H. apply andb_true_iff in H. destruct H as [Hc Hw].
    change (c :: w) with ([c] ++ w). constructor.
    + now constructor.
    + now apply star_class.
Qed.

Lemma repeat_class cl n : forall w b rest,
  Matches (OpRepeat n (OpCharClass cl)) b w rest <->
  n <= length w /\ forallb (inClass cl) w = true.
Proof.
  induction n as [|n IH]; intros w b rest.
  - split.
    + intros M. inversion M; subst. split; [lia|].
      eapply star_class; eassumption.
    + intros [_ H]. constructor. now apply star_class.
  - split.
    + intros M. inversion M; subst.
      match goal with
      | H1 : Matches (OpCharClass _) _ _ _,
        H2 : Matches (OpRepeat _ _) _ _ _ |- _ =>
          inversion H1; subst; apply IH in H2; destruct H2 as [Hn Hw]
      end.
      simpl. split; [lia|]. apply andb_true_iff. auto.
    + intros [Hn H]. destruct w as [|c w]; [simpl in Hn; lia|].
      simpl in H, Hn. apply andb_true_iff in H. destruct H as [Hc Hw].
      change (c :: w) with ([c] ++ w). constructor.
      * now constructor.
      * apply IH. split; [lia | assumption].
Qed.

(** *** Strings and their bytes *)

Lemma bytes_app (a b : string) :
  list_ascii_of_string (a ++ b) =
  list_ascii_of_string a ++ list_ascii_of_string b.
Proof. induction a as [|c a IH]; simpl; [reflexivity | now rewrite IH]. Qed.

Lemma bytes_length (s : string) :
  String.length s = length (list_ascii_of_string s).
Proof. induction s as [|c s IH]; simpl; [reflexivity | now rewrite IH]. Qed.

Lemma bytes_inj (a b : string) :
  list_ascii_of_string a = list_ascii_of_string b -> a = b.
Proof.
  intros E. rewrite <- (string_of_list_ascii_of_string a), E.
  apply string_of_list_ascii_of_string.
Qed.

Lemma bytes_nil (s : string) : list_ascii_of_string s = [] <-> s = "".
Proof. destruct s; simpl; split; congruence. Qed.

(** *** The classes of the pattern are the character sets of Section 3 *)

Ltac by_cases_on_byte c :=
  destruct c as [[] [] [] [] [] [] [] []]; reflexivity.

Lemma localClass_spec c :
  inClass [("a", "z"); ("A", "Z"); ("0", "9"); (".", "."); ("_", "_");
           ("%", "%"); ("+", "+"); ("-", "-")]%char c = localChar c.
Proof. by_cases_on_byte c. Qed.

Lemma domainClass_spec c :
  inClass [("a", "z"); ("A", "Z"); ("0", "9"); (".", "."); ("-", "-")]%char c
  = domainChar c.
Proof. by_cases_on_byte c. Qed.

Lemma letters_spec c :
  inClass [("a", "z"); ("A", "Z")]%char c = isLetter c.
Proof. by_cases_on_byte c. Qed.

Lemma forallb_ext_eq {A} (f g : A -> bool) (l : list A) :
  (forall x, f x = g x) -> forallb f l = forallb g l.
Proof.
  intros E. induction l as [|x l IH]; simpl; [reflexivity|].
  now rewrite E, IH.
Qed.

Lemma emailPattern_compiles : Compile emailPattern = Some emailRegexp.
Proof. vm_compute. reflexivity. Qed.

Lemma emailRegexp_inv b w rest :
  Matches emailRegexp b w rest <-> b = true /\ rest = [] /\ shape w.
Proof.
  unfold emailRegexp; cbn [concat]. split.
  - intros M.
    apply concat_inv in M. destruct M as (w0 & w' & -> & M0 & M).
    apply begin_inv in M0. destruct M0 as [-> ->]. cbn [app] in *.
    apply concat_inv in M. destruct M as (l & w1 & -> & Ml & M).
    apply plus_class in Ml. destruct Ml as [Hl Hl'].
    apply concat_inv in M. destruct M as (a & w2 & -> & Ma & M).
    apply literal_inv in Ma. subst a.
    apply concat_inv in M. destruct M as (d & w3 & -> & Md & M).
    apply plus_class in Md. destruct Md as [Hd Hd'].
    apply concat_inv in M. destruct M as (p & w4 & -> & Mp & M).
    apply literal_inv in Mp. subst p.
    apply concat_inv in M. destruct M as (t & e & -> & Mt & M).
    apply repeat_class in Mt. destruct Mt as [Ht Ht'].
    apply end_inv in M. destruct M as [-> ->].
    split; [reflexivity|]. split; [reflexivity|].
    exists l, d, t. rewrite app_nil_r. cbn [app].
    rewrite (forallb_ext_eq _ _ _ localClass_spec) in Hl'.
    rewrite (forallb_ext_eq _ _ _ domainClass_spec) in Hd'.
    rewrite (forallb_ext_eq _ _ _ letters_spec) in Ht'.
    repeat split; assumption.
  - intros (-> & -> & l & d & t & -> & Hl & Hl' & Hd & Hd' & Ht & Ht').
    rewrite <- (forallb_ext_eq _ _ _ localClass_spec) in Hl'.
    rewrite <- (forallb_ext_eq _ _ _ domainClass_spec) in Hd'.
    rewrite <- (forallb_ext_eq _ _ _ letters_spec) in Ht'.
    change (l ++ "@"%char :: d ++ "."%char :: t)
      with ([] ++ l ++ ["@"%char] ++ d ++ ["."%char] ++ t).
    rewrite <- (app_nil_r t) at 1.
    repeat (apply M_Concat).
    + constructor.
    + apply plus_class. auto.
    + constructor.
    + apply plus_class. auto.
    + constructor.
    + apply repeat_class. auto.
    + constructor.
Qed.

Lemma isValidEmail_shape (s : string) :
  isValidEmail s = true <-> shape (list_ascii_of_string s).
Proof.
  unfold isValidEmail. rewrite emailPattern_compiles.
  unfold MatchString. rewrite search_iff. split.
  - intros (front & w & rest & E & M).
    apply emailRegexp_inv in M. destruct M as (Hb & -> & Hw).
    simpl in Hb. apply null_true in Hb. subst front.
    rewrite app_nil_r in E. simpl in E. now rewrite E.
  - intros H. exists [], (list_ascii_of_string s), [].
    rewrite app_nil_r. split; [reflexivity|].
    apply emailRegexp_inv. auto.
Qed.

Lemma shape_EmailShape (s : string) :
  shape (list_ascii_of_string s) <-> EmailShape s.
Proof.
  split.
  - intros (l & d & t & E & Hl & Hl' & Hd & Hd' & Ht & Ht').
    exists (string_of_list_ascii l), (string_of_list_ascii d),
           (string_of_list_ascii t).
    unfold all. rewrite bytes_length.
    rewrite !list_ascii_of_string_of_list_ascii.
    repeat split; try assumption.
    + apply bytes_inj. rewrite E, !bytes_app.
      rewrite !list_ascii_of_string_of_list_ascii. reflexivity.
    + intros C. apply Hl. apply bytes_nil in C.
      now rewrite list_ascii_of_string_of_list_ascii in C.
    + intros C. apply Hd. apply bytes_nil in C.
      now rewrite list_ascii_of_string_of_list_ascii in C.
  - intros (l & d & t & -> & Hl & Hl' & Hd & Hd' & Ht & Ht').
    exists (list_ascii_of_string l), (list_ascii_of_string d),
           (list_ascii_of_string t).
    rewrite bytes_length in Ht. rewrite !bytes_app.
    repeat split; try assumption.
    + intros C. apply Hl. now apply bytes_nil.
    + intros C. apply Hd. now apply bytes_nil.
Qed.

End email_facts.

(** C1.  [isValidEmail s] is true exactly when [s] as a whole matches the
    pattern [^[a-zA-Z0-9._%+-]+@[a-zA-Z0-9.-]+\.[a-zA-Z]{2,}$], that is,
    when [s] is a local part, an [@], a domain, a dot and two letters or
    more; in particular it is false for a string without [@] and for a
    string that does not end in a dot and two letters or more. *)
Theorem isValidEmail_iff_full_match (s : string) :
  (isValidEmail s = true <-> regexp.FullMatch emailPattern s) /\
  (isValidEmail s = true <-> EmailShape s) /\
  (~ contains s "@" -> isValidEmail s = false) /\
  (~ hasLetterSuffix s -> isValidEmail s = false).
Proof.
  assert (Hshape : isValidEmail s = true <-> EmailShape s).
  { rewrite email_facts.isValidEmail_shape.
    apply email_facts.shape_EmailShape. }
  split; [|split; [exact Hshape | split]].
  - rewrite email_facts.isValidEmail_shape. unfold regexp.FullMatch. split.
    + intros H. exists emailRegexp.
      split; [apply email_facts.emailPattern_compiles|].
      apply email_facts.emailRegexp_inv. auto.
    + intros (re & E & M).
      rewrite email_facts.emailPattern_compiles in E. injection E as <-.
      apply email_facts.emailRegexp_inv in M. tauto.
  - intros Hno. apply not_true_is_false. intros E.
    apply Hno. apply Hshape in E.
    destruct E as (l & d & t & -> & _). unfold contains.
    rewrite !email_facts.bytes_app. apply in_or_app. right. now left.
  - intros Hno. apply not_true_is_false. intros E.
    apply Hno. apply Hshape in E.
    destruct E as (l & d & t & -> & _ & _ & _ & _ & Ht & Ht').
    exists (l ++ "@" ++ d)%string, t. split; [|split; assumption].
    apply email_facts.bytes_inj. rewrite !email_facts.bytes_app.
    now rewrite <- !app_assoc.
Qed.

Lemma isValidEmail_iff_full_match_witness :
  EmailShape "ann@example.com" /\ isValidEmail "not-an-email" = false.
Proof.
  split.
  - apply (isValidEmail_iff_full_match "ann@example.com"). reflexivity.
  - destruct (isValidEmail_iff_full_match "not-an-email") as (_ & _ & Hat & _).
    apply Hat. unfold contains. simpl. intros H.
    repeat (destruct H as [H | H]; [discriminate H|]). exact H.
Defined.

(* ================================================================== *)
(** * The store *)
(* ================================================================== *)

Module gorm_facts.
Import gorm.

Lemma statement_rows db : rows (snd (statement db)) = rows db.
Proof. unfold statement. destruct (faults db); reflexivity. Qed.

Lemma statement_seq db : seq (snd (statement db)) = seq db.
Proof. unfold statement. destruct (faults db); reflexivity. Qed.

Lemma lookup_In l id u : lookup l id = Some u -> In u l /\ hasId id u = true.
Proof. unfold lookup. apply find_some. Qed.

Lemma lookup_replace value l :
  lookup l (Z.of_N (ID value)) <> None ->
  lookup (map (replace value) l) (Z.of_N (ID value)) = Some value.
Proof.
  unfold lookup, replace, hasId.
  induction l as [|x l IH]; simpl; intros H; [congruence|].
  destruct (N.eqb_spec (ID x) (ID value)) as [E | E].
  - now rewrite Z.eqb_refl.
  - destruct (Z.eqb_spec (Z.of_N (ID x)) (Z.of_N (ID value))) as [C | C].
    + apply N2Z.inj in C. contradiction.
    + auto.
Qed.

(** *** INSERT *)

Lemma insert_ok db value db1 created result :
  insert db value = (db1, created, result) ->
  Error result = None ->
  rows db1 = rows db ++ [created] /\
  created = withID value (if (ID value =? 0)%N then (seq db + 1)%N
                          else ID value) /\
  ID created <> 0%N /\
  lookup (rows db) (Z.of_N (ID created)) = None.
Proof.
  unfold insert. intros H Hok.
  destruct (storable value); cbn [negb] in H;
    [|injection H as <- <- <-; discriminate Hok].
  destruct (N.eqb_spec (ID value) 0) as [Ez | Ez].
  - destruct (maxInt8 <? seq db + 1)%N;
      [injection H as <- <- <-; discriminate Hok|].
    destruct (lookup (rows db) (Z.of_N (seq db + 1))) eqn:Hl;
      injection H as <- <- <-; [discriminate Hok|].
    cbn. repeat split; [lia | exact Hl].
  - destruct (maxInt8 <? ID value)%N;
      [injection H as <- <- <-; discriminate Hok|].
    destruct (lookup (rows db) (Z.of_N (ID value))) eqn:Hl;
      injection H as <- <- <-; [discriminate Hok|].
    cbn. repeat split; [now destruct value | exact Ez | exact Hl].
Qed.

Lemma insert_failed db value db1 created result :
  insert db value = (db1, created, result) ->
  Error result <> None ->
  rows db1 = rows db /\ created = value.
Proof.
  unfold insert. intros H Hko.
  destruct (storable value); cbn [negb] in H;
    [|injection H as <- <- <-; auto].
  destruct (ID value =? 0)%N.
  - destruct (maxInt8 <? seq db + 1)%N; [injection H as <- <- <-; auto|].
    destruct (lookup (rows db) (Z.of_N (seq db + 1)));
      injection H as <- <- <-; [auto | now contradiction Hko].
  - destruct (maxInt8 <? ID value)%N; [injection H as <- <- <-; auto|].
    destruct (lookup (rows db) (Z.of_N (ID value)));
      injection H as <- <- <-; [auto | now contradiction Hko].
Qed.

(** The rows after [insert]: the old ones, and the new one if any. *)
Lemma insert_rows db value :
  let '(db1, created, result) := insert db value in
  rows db1 = rows db \/
  (rows db1 = rows db ++ [created] /\
   Name created = Name value /\ Email created = Email value).
Proof.
  destruct (insert db value) as [[db1 created] result] eqn:H.
  destruct (Error result) eqn:Hr.
  - left. eapply insert_failed; [exact H | congruence].
  - right. destruct (insert_ok _ _ _ _ _ H Hr) as (Hrows & -> & _).
    auto.
Qed.

(** *** The five calls *)

Lemma Create_rows db value :
  let '(db1, created, result) := Create db value in
  rows db1 = rows db \/
  (rows db1 = rows db ++ [created] /\
   Name created = Name value /\ Email created = Email value).
Proof.
  unfold Create. pose proof (statement_rows db) as Hs.
  destruct (statement db) as [fails db0]. simpl in Hs.
  destruct fails; [now left|].
  pose proof (insert_rows db0 value) as Hi.
  destruct (insert db0 value) as [[db1 created] result].
  now rewrite <- Hs.
Qed.

Lemma Create_ok db value db1 created result :
  Create db value = (db1, created, result) ->
  Error result = None ->
  rows db1 = rows db ++ [created] /\
  created = withID value (if (ID value =? 0)%N then (seq db + 1)%N
                          else ID value) /\
  ID created <> 0%N /\
  lookup (rows db) (Z.of_N (ID created)) = None.
Proof.
  unfold Create. pose proof (statement_rows db) as Hs.
  pose proof (statement_seq db) as Hq.
  destruct (statement db) as [fails db0]. simpl in Hs, Hq.
  destruct fails; intros H Hok; [injection H as <- <- <-; discriminate|].
  rewrite <- Hs, <- Hq. eapply insert_ok; eassumption.
Qed.

Lemma First_ok db dest id db1 user result :
  First db dest id = (db1, user, result) ->
  Error result = None ->
  db1 = snd (statement db) /\ lookup (rows db) id = Some user.
Proof.
  unfold First. pose proof (statement_rows db) as Hs.
  destruct (statement db) as [fails db0]. simpl in *.
  destruct fails; intros H Hok; [injection H as <- <- <-; discriminate|].
  rewrite <- Hs.
  destruct (lookup (rows db0) id);
    injection H as <- <- <-; [auto | discriminate].
Qed.

Lemma First_absent db dest id :
  lookup (rows db) id = None ->
  let '(db1, user, result) := First db dest id in
  db1 = snd (statement db) /\ Error result <> None.
Proof.
  intros Hl. unfold First. pose proof (statement_rows db) as Hs.
  destruct (statement db) as [fails db0]. simpl in *.
  destruct fails; [split; [reflexivity | discriminate]|].
  rewrite Hs, Hl. split; [reflexivity | discriminate].
Qed.

Lemma Save_rows db value :
  let '(db1, saved, result) := Save db value in
  rows db1 = rows db \/
  rows db1 = map (replace value) (rows db) \/
  (rows db1 = rows db ++ [saved] /\
   Name saved = Name value /\ Email saved = Email value).
Proof.
  unfold Save. destruct (ID value =? 0)%N.
  - pose proof (Create_rows db value) as H.
    destruct (Create db value) as [[db1 saved] result]. tauto.
  - pose proof (statement_rows db) as Hs.
    destruct (statement db) as [fails db0]. simpl in Hs.
    destruct fails; [now left|].
    destruct (storable value); cbn [negb]; [|now left].
    destruct (lookup (rows db0) (Z.of_N (ID value))).
    + right. left. cbn. now rewrite Hs.
    + pose proof (statement_rows db0) as Hs'.
      destruct (statement db0) as [fails db0']. simpl in Hs'.
      destruct fails; [left; cbn; congruence|].
      pose proof (insert_rows db0' value) as Hi.
      destruct (insert db0' value) as [[db1 saved] result].
      rewrite <- Hs, <- Hs'. tauto.
Qed.

(** Saving a record whose row is there: the row is replaced, unless the
    statement fails. *)
Lemma Save_existing db value :
  ID value <> 0%N ->
  lookup (rows db) (Z.of_N (ID value)) <> None ->
  let '(db1, saved, result) := Save db value in
  saved = value /\
  (Error result = None ->
   lookup (rows db1) (Z.of_N (ID value)) = Some value) /\
  (Error result <> None -> rows db1 = rows db).
Proof.
  intros Hz Hl. unfold Save.
  apply N.eqb_neq in Hz. rewrite Hz.
  pose proof (statement_rows db) as Hs.
  destruct (statement db) as [fails db0]. simpl in Hs.
  destruct fails; [cbn; intuition congruence|].
  destruct (storable value); cbn [negb]; [|cbn; intuition congruence].
  rewrite <- Hs in Hl.
  destruct (lookup (rows db0) (Z.of_N (ID value))) eqn:E; [|congruence].
  cbn. split; [reflexivity|]. split.
  - intros _. apply lookup_replace. congruence.
  - intros C. now contradiction C.
Qed.

Lemma Delete_ok db id db1 result :
  Delete db id = (db1, result) ->
  Error result = None ->
  rows db1 = filter (fun u => negb (hasId id u)) (rows db).
Proof.
  unfold Delete. pose proof (statement_rows db) as Hs.
  destruct (statement db) as [fails db0]. simpl in Hs.
  destruct fails; intros H Hok; injection H as <- <-; [discriminate|].
  cbn. now rewrite Hs.
Qed.

Lemma Delete_rows db id :
  rows (fst (Delete db id)) = rows db \/
  rows (fst (Delete db id)) = filter (fun u => negb (hasId id u)) (rows db).
Proof.
  unfold Delete. pose proof (statement_rows db) as Hs.
  destruct (statement db) as [fails db0]. simpl in Hs.
  destruct fails; cbn; rewrite Hs; auto.
Qed.

Lemma filter_absent l id :
  lookup l id = None -> filter (fun u => negb (hasId id u)) l = l.
Proof.
  unfold lookup. induction l as [|x l IH]; simpl; [reflexivity|].
  destruct (hasId id x); [discriminate|]. simpl. intros H. now rewrite IH.
Qed.

End gorm_facts.

(* ================================================================== *)
(** * [strconv.Atoi] accepts numeric ids only *)
(* ================================================================== *)

Module strconv_facts.
Import strconv.

Lemma digit_isDigit c d : digit c = Some d -> isDigit c = true.
Proof.
  destruct c as [[] [] [] [] [] [] [] []]; cbv; congruence.
Qed.

Lemma digits_all s : forall acc n,
  digits s acc = Some n -> all isDigit s = true.
Proof.
  unfold all. induction s as [|c s IH]; intros acc n H; [reflexivity|].
  simpl in H. destruct (digit c) as [d|] eqn:Hd; [|discriminate].
  cbn [list_ascii_of_string forallb].
  rewrite (digit_isDigit _ _ Hd). simpl. now apply IH in H.
Qed.

Lemma Atoi_body s id :
  Atoi s = Some id ->
  forall neg body,
    (neg, body) = match s with
                  | String "-" t => (true, t)
                  | String "+" t => (false, t)
                  | _ => (false, s)
                  end ->
    negb (String.eqb body "") && all isDigit body = true.
Proof.
  unfold Atoi. intros H neg body E. rewrite <- E in H.
  destruct body as [|c body]; [discriminate|].
  destruct (digits (String c body) 0) as [n|] eqn:Hn; [|discriminate].
  apply digits_all in Hn. now rewrite Hn.
Qed.

Lemma Atoi_numeric s id : Atoi s = Some id -> numeric s = true.
Proof.
  intros H. unfold numeric.
  destruct s as [|c t]; [discriminate H|].
  destruct (Ascii.eqb_spec c "-") as [-> | Hm].
  - now apply (Atoi_body _ _ H true t).
  - destruct (Ascii.eqb_spec c "+") as [-> | Hp].
    + now apply (Atoi_body _ _ H false t).
    + assert (match String c t with
              | String "-" t0 => t0
              | String "+" t0 => t0
              | _ => String c t
              end = String c t) as ->.
      { destruct c as [[] [] [] [] [] [] [] []]; try reflexivity;
          [now contradiction Hm | now contradiction Hp]. }
      apply (Atoi_body _ _ H false (String c t)).
      destruct c as [[] [] [] [] [] [] [] []]; try reflexivity;
        [now contradiction Hm | now contradiction Hp].
Qed.

Lemma not_numeric s : numeric s = false -> Atoi s = None.
Proof.
  intros H. destruct (Atoi s) as [id|] eqn:E; [|reflexivity].
  apply Atoi_numeric in E. congruence.
Qed.

Lemma isDigit_digit c :
  isDigit c = true -> digit c = Some (Z.of_N (N_of_ascii c) - 48)%Z.
Proof. destruct c as [[] [] [] [] [] [] [] []]; cbv; congruence. Qed.

Lemma digits_value s : forall acc,
  all isDigit s = true -> digits s acc = Some (decimalValue s acc).
Proof.
  unfold all. induction s as [|c s IH]; intros acc H; [reflexivity|].
  cbn [list_ascii_of_string forallb] in H. apply andb_true_iff in H.
  destruct H as [Hc Hs]. cbn [digits decimalValue].
  rewrite (isDigit_digit _ Hc). now apply IH.
Qed.

Lemma Atoi_of_body s neg body :
  (neg, body) = match s with
                | String "-" t => (true, t)
                | String "+" t => (false, t)
                | _ => (false, s)
                end ->
  negb (String.eqb body "") && all isDigit body = true ->
  Atoi s =
  let v := if neg then (- decimalValue body 0)%Z else decimalValue body 0 in
  if (minInt <=? v)%Z && (v <=? maxInt)%Z then Some v else None.
Proof.
  intros E H. unfold Atoi. rewrite <- E.
  apply andb_true_iff in H. destruct H as [Hne Hd].
  destruct body as [|c body]; [discriminate Hne|].
  now rewrite (digits_value _ 0%Z Hd).
Qed.

(** A numeric id is what [Atoi] accepts, when its number fits [int]. *)
Lemma Atoi_spec s :
  numeric s = true ->
  Atoi s = if fitsInt s then Some (idValue s) else None.
Proof.
  intros H. destruct s as [|c t]; [discriminate H|].
  destruct (Ascii.eqb_spec c "-") as [-> | Hm].
  - exact (Atoi_of_body (String "-" t) true t eq_refl H).
  - destruct (Ascii.eqb_spec c "+") as [-> | Hp].
    + exact (Atoi_of_body (String "+" t) false t eq_refl H).
    + assert (numeric (String c t)
              = negb (String.eqb (String c t) "")
                && all isDigit (String c t)) as En.
      { destruct c as [[] [] [] [] [] [] [] []]; try reflexivity;
          [now contradiction Hm | now contradiction Hp]. }
      assert (idValue (String c t) = decimalValue (String c t) 0) as Ev.
      { destruct c as [[] [] [] [] [] [] [] []]; try reflexivity;
          [now contradiction Hm | now contradiction Hp]. }
      assert ((false, String c t)
              = match String c t with
                | String "-" t0 => (true, t0)
                | String "+" t0 => (false, t0)
                | _ => (false, String c t)
                end) as Eb.
      { destruct c as [[] [] [] [] [] [] [] []]; try reflexivity;
          [now contradiction Hm | now contradiction Hp]. }
      rewrite En in H. unfold fitsInt. rewrite Ev.
      exact (Atoi_of_body (String c t) false (String c t) Eb H).
Qed.

End strconv_facts.

(* ================================================================== *)
(** * A field that the body omits decodes as the zero value *)
(* ================================================================== *)

Module json_facts.
Import json.

Lemma setField_other u key v u' :
  setField u key v = Some u' ->
  (fieldOf key <> Some F_id -> ID u' = ID u) /\
  (fieldOf key <> Some F_name -> Name u' = Name u) /\
  (fieldOf key <> Some F_email -> Email u' = Email u).
Proof.
  unfold setField. intros H.
  destruct (fieldOf key) as [[ | | ]|]; destruct v;
    try discriminate H; try (injection H as <-; tauto).
  destruct (parseUint literal); [|discriminate H].
  injection H as <-. tauto.
Qed.

Lemma setFields_omitted members : forall u u',
  setFields u members = Some u' ->
  (omits members F_id -> ID u' = ID u) /\
  (omits members F_name -> Name u' = Name u) /\
  (omits members F_email -> Email u' = Email u).
Proof.
  unfold omits.
  induction members as [|[key v] rest IH]; intros u u' H; simpl in H.
  - injection H as <-. tauto.
  - destruct (setField u key v) as [u1|] eqn:H1; [|discriminate H].
    apply setField_other in H1. destruct H1 as (Hi & Hn & He).
    apply IH in H. destruct H as (Hi' & Hn' & He').
    repeat split; intros Ho.
    + rewrite Hi', Hi; [reflexivity | |]; intros; eapply Ho; simpl; eauto.
    + rewrite Hn', Hn; [reflexivity | |]; intros; eapply Ho; simpl; eauto.
    + rewrite He', He; [reflexivity | |]; intros; eapply Ho; simpl; eauto.
Qed.

(** An object without the member decodes, into a fresh [User], with the
    field empty (zero for the id). *)
Lemma Decode_omitted members u :
  Decode (Next (Object members)) zeroUser = Some u ->
  (omits members F_id -> ID u = 0%N) /\
  (omits members F_name -> Name u = "") /\
  (omits members F_email -> Email u = "").
Proof. intros H. now apply setFields_omitted in H. Qed.

End json_facts.

(* ================================================================== *)
(** * The handlers, step by step *)
(* ================================================================== *)

Lemma eqb_empty_false (s : string) : String.eqb s "" = false <-> s <> "".
Proof. apply String.eqb_neq. Qed.

Lemma eqb_empty_true (s : string) : String.eqb s "" = true <-> s = "".
Proof. apply String.eqb_eq. Qed.

(** What [createUser] does once the body has passed the create rules. *)
Lemma createUser_accepted db r user :
  json.Decode (Body r) zeroUser = Some user ->
  Name user <> "" ->
  isValidEmail (Email user) = true ->
  createUser db http.NewRecorder r =
  let '(db1, created, result) := gorm.Create db user in
  (db1, match gorm.Error result with
        | Some _ =>
            errorResponse "Failed to create user"
              http.StatusInternalServerError
        | None => jsonResponse http.StatusCreated (json.ofUser created)
        end).
Proof.
  intros Hd Hn He. unfold createUser. rewrite Hd.
  apply eqb_empty_false in Hn. rewrite Hn, He.
  assert (Email user <> "") as Hne.
  { intros C. rewrite C in He. discriminate He. }
  apply eqb_empty_false in Hne. rewrite Hne. cbn [orb negb].
  destruct (gorm.Create db user) as [[db1 created] result].
  destruct (gorm.Error result); reflexivity.
Qed.

(** [updateUser] with the two conditional assignments read as [merge]. *)
Lemma updateUser_eq db w r :
  updateUser db w r =
  match strconv.Atoi (Vars r "id") with
  | None =>
      (db, http.Error w (errorBody "Invalid user ID") http.StatusBadRequest)
  | Some id =>
      let '(db1, user, result) := gorm.First db zeroUser id in
      match gorm.Error result with
      | Some _ =>
          (db1, http.Error w (errorBody "User not found") http.StatusNotFound)
      | None =>
          match json.Decode (Body r) zeroUser with
          | None =>
              (db1, http.Error w (errorBody "Invalid request payload")
                      http.StatusBadRequest)
          | Some supplied =>
              if negb (String.eqb (Name supplied) "")
                 && (String.length (Name supplied) <? 3)%nat
              then
                (db1, http.Error w
                        (errorBody "Name must be at least 3 characters")
                        http.StatusBadRequest)
              else if negb (String.eqb (Email supplied) "")
                      && negb (isValidEmail (Email supplied))
              then
                (db1, http.Error w (errorBody "Invalid email format")
                        http.StatusBadRequest)
              else
                let '(db2, saved, _) := gorm.Save db1 (merge user supplied) in
                (db2, http.Write
                        (http.SetHeader w "Content-Type" "application/json")
                        (http.JSONLine (json.ofUser saved)))
          end
      end
  end.
Proof.
  unfold updateUser.
  destruct (strconv.Atoi (Vars r "id")) as [id|]; [|reflexivity].
  destruct (gorm.First db zeroUser id) as [[db1 user] result].
  destruct (gorm.Error result); [reflexivity|].
  destruct (json.Decode (Body r) zeroUser) as [supplied|]; [|reflexivity].
  destruct (negb (String.eqb (Name supplied) "")
            && (String.length (Name supplied) <? 3)%nat); [reflexivity|].
  destruct (negb (String.eqb (Email supplied) "")
            && negb (isValidEmail (Email supplied))); [reflexivity|].
  replace (merge user supplied) with
    (let user0 :=
       if negb (String.eqb (Name supplied) "")
       then {| ID := ID user; Name := Name supplied; Email := Email user |}
       else user in
     if negb (String.eqb (Email supplied) "")
     then {| ID := ID user0; Name := Name user0; Email := Email supplied |}
     else user0); [reflexivity|].
  unfold merge.
  destruct (String.eqb (Name supplied) ""), (String.eqb (Email supplied) "");
    destruct user; reflexivity.
Qed.

Lemma shortName_iff (u : User) :
  negb (String.eqb (Name u) "") && (String.length (Name u) <? 3)%nat = true
  <-> shortName u.
Proof.
  unfold shortName.
  rewrite andb_true_iff, negb_true_iff, eqb_empty_false, Nat.ltb_lt. tauto.
Qed.

Lemma badEmail_iff (u : User) :
  negb (String.eqb (Email u) "") && negb (isValidEmail (Email u)) = true
  <-> badEmail u.
Proof.
  unfold badEmail.
  rewrite andb_true_iff, !negb_true_iff, eqb_empty_false. tauto.
Qed.

(** The email of the merged record, once the update rules have passed: a
    supplied one that is valid, or the stored one. *)
Lemma merge_email user supplied :
  negb (String.eqb (Email supplied) "")
  && negb (isValidEmail (Email supplied)) = false ->
  validRow (merge user supplied) \/
  Email (merge user supplied) = Email user.
Proof.
  unfold validRow, merge. cbn [Email]. intros H.
  destruct (String.eqb (Email supplied) "") eqn:E; [now right|].
  left. cbn [negb andb] in H. apply negb_false_iff in H.
  split; [now apply eqb_empty_false | exact H].
Qed.

Lemma First_state db dest id :
  fst (fst (gorm.First db dest id)) = snd (gorm.statement db).
Proof.
  unfold gorm.First. destruct (gorm.statement db) as [fails db0].
  destruct fails; [reflexivity|].
  destruct (gorm.lookup (gorm.rows db0) id); reflexivity.
Qed.

Lemma createUser_new_rows db w r u :
  In u (gorm.rows (fst (createUser db w r))) ->
  In u (gorm.rows db) \/ validRow u.
Proof.
  unfold createUser.
  destruct (json.Decode (Body r) zeroUser) as [user|]; [|now left].
  destruct (String.eqb (Name user) ""); [now left|].
  destruct (String.eqb (Email user) "") eqn:Hee; [now left|].
  destruct (isValidEmail (Email user)) eqn:He; [|now left].
  cbn [orb negb].
  pose proof (gorm_facts.Create_rows db user) as Hc.
  destruct (gorm.Create db user) as [[db1 created] result].
  assert (In u (gorm.rows db1) -> In u (gorm.rows db) \/ validRow u) as Hu.
  { destruct Hc as [-> | (-> & _ & Hem)]; [now left|].
    intros Hin. apply in_app_or in Hin. destruct Hin as [Hin | [<- | []]].
    - now left.
    - right. unfold validRow. rewrite Hem.
      split; [now apply eqb_empty_false | exact He]. }
  destruct (gorm.Error result); exact Hu.
Qed.

Lemma updateUser_new_rows db w r u :
  In u (gorm.rows (fst (updateUser db w r))) ->
  In u (gorm.rows db) \/ validRow u \/
  exists stored, In stored (gorm.rows db) /\ Email u = Email stored.
Proof.
  rewrite updateUser_eq.
  destruct (strconv.Atoi (Vars r "id")) as [id|]; [|now left].
  pose proof (First_state db zeroUser id) as Hst.
  destruct (gorm.First db zeroUser id) as [[db1 user] result] eqn:Hf.
  cbn [fst] in Hst.
  assert (gorm.rows db1 = gorm.rows db) as Hrows.
  { rewrite Hst. apply gorm_facts.statement_rows. }
  destruct (gorm.Error result) eqn:Hok; [cbn [fst]; rewrite Hrows; now left|].
  destruct (gorm_facts.First_ok _ _ _ _ _ _ Hf Hok) as [_ Hl].
  apply gorm_facts.lookup_In in Hl. destruct Hl as [Hin _].
  destruct (json.Decode (Body r) zeroUser) as [supplied|];
    [|cbn [fst]; rewrite Hrows; now left].
  destruct (negb (String.eqb (Name supplied) "")
            && (String.length (Name supplied) <? 3)%nat);
    [cbn [fst]; rewrite Hrows; now left|].
  destruct (negb (String.eqb (Email supplied) "")
            && negb (isValidEmail (Email supplied))) eqn:Hb;
    [cbn [fst]; rewrite Hrows; now left|].
  pose proof (merge_email user supplied Hb) as Hm.
  assert (forall v, Email v = Email (merge user supplied) ->
            validRow v \/
            exists stored, In stored (gorm.rows db) /\ Email v = Email stored)
    as Hv.
  { intros v Ev. destruct Hm as [[Hm1 Hm2] | Hm].
    - left. unfold validRow. now rewrite Ev.
    - right. exists user. split; [exact Hin | congruence]. }
  pose proof (gorm_facts.Save_rows db1 (merge user supplied)) as Hs.
  destruct (gorm.Save db1 (merge user supplied)) as [[db2 saved] saveResult].
  cbn [fst]. rewrite Hrows in Hs.
  destruct Hs as [-> | [-> | (-> & _ & Hem)]].
  - now left.
  - intros Hu. apply in_map_iff in Hu. destruct Hu as (x & Hx & Hxin).
    unfold gorm.replace in Hx.
    destruct (ID x =? ID (merge user supplied))%N.
    + right. apply Hv. now rewrite <- Hx.
    + left. now rewrite <- Hx.
  - intros Hu. apply in_app_or in Hu. destruct Hu as [Hu | [<- | []]].
    + now left.
    + right. now apply Hv.
Qed.

(** Whatever [Save] reports, [updateUser] answers 200 with the record it
    tried to save. *)
Lemma updateUser_drops_save_result db r id db1 user result supplied :
  strconv.Atoi (Vars r "id") = Some id ->
  gorm.First db zeroUser id = (db1, user, result) ->
  gorm.Error result = None ->
  json.Decode (Body r) zeroUser = Some supplied ->
  ~ shortName supplied -> ~ badEmail supplied ->
  http.Status (snd (updateUser db http.NewRecorder r)) = http.StatusOK.
Proof.
  intros Ha Hf Hok Hd Hs Hb. rewrite updateUser_eq, Ha, Hf, Hok, Hd.
  destruct (negb (String.eqb (Name supplied) "")
            && (String.length (Name supplied) <? 3)%nat) eqn:E1.
  { contradiction Hs. now apply shortName_iff. }
  destruct (negb (String.eqb (Email supplied) "")
            && negb (isValidEmail (Email supplied))) eqn:E2.
  { contradiction Hb. now apply badEmail_iff. }
  destruct (gorm.Save db1 (merge user supplied)) as [[db2 saved] saveResult].
  reflexivity.
Qed.

(* ================================================================== *)
(** * The properties of the specification *)
(* ================================================================== *)

(** C2, as stated, fails: the handler measures a name with [len], in
    bytes.  A name of two characters that takes four bytes is shorter than
    3 characters and is answered 200, not 400, and saved. *)
Lemma updateUser_accepts_two_characters :
  let renamed :=
    {| ID := 1; Name := twoCharacters; Email := "ann@example.com" |} in
  twoCharacters <> "" /\
  characters twoCharacters = 2 /\
  String.length twoCharacters = 4 /\
  updateUser annDB http.NewRecorder
    (request "1" (object [("name", json.Str twoCharacters)]))
  = ({| gorm.rows := [renamed]; gorm.seq := 1; gorm.faults := [] |},
     jsonResponse http.StatusOK (json.ofUser renamed)).
Proof. repeat split. discriminate. Qed.

(** C2, amended.  On an existing user, [updateUser] treats each supplied
    field on its own: a non-empty name of fewer than 3 bytes is answered
    400 with the message about 3 characters, a non-empty email that fails
    the pattern is answered 400, and otherwise the supplied non-empty
    fields are merged into the fetched record (an empty or omitted field
    leaves the stored one), the merged record is saved and is the body of
    the 200 answer.  The fetched record has a non-zero [ID], as every row
    that the sequence numbers. *)
Theorem updateUser_field_rules db r id db1 user result supplied :
  strconv.Atoi (Vars r "id") = Some id ->
  gorm.First db zeroUser id = (db1, user, result) ->
  gorm.Error result = None ->
  json.Decode (Body r) zeroUser = Some supplied ->
  let '(db', w) := updateUser db http.NewRecorder r in
  (shortName supplied ->
   db' = db1 /\
   w = errorResponse "Name must be at least 3 characters"
         http.StatusBadRequest) /\
  (badEmail supplied -> db' = db1 /\ http.Status w = http.StatusBadRequest) /\
  (~ shortName supplied -> ~ badEmail supplied -> ID user <> 0%N ->
   let '(db2, _, saveResult) := gorm.Save db1 (merge user supplied) in
   db' = db2 /\
   w = jsonResponse http.StatusOK (json.ofUser (merge user supplied)) /\
   (gorm.Error saveResult = None ->
    gorm.lookup (gorm.rows db') id = Some (merge user supplied))).
Proof.
  intros Ha Hf Hok Hd. rewrite updateUser_eq, Ha, Hf, Hok, Hd.
  pose proof (shortName_iff supplied) as Hs.
  pose proof (badEmail_iff supplied) as Hb.
  destruct (negb (String.eqb (Name supplied) "")
            && (String.length (Name supplied) <? 3)%nat).
  { split; [auto|]. split; [auto|]. intros C. contradiction C. now apply Hs. }
  destruct (negb (String.eqb (Email supplied) "")
            && negb (isValidEmail (Email supplied))).
  { split; [intros C; apply Hs in C; discriminate|].
    split; [auto|]. intros _ C. contradiction C. now apply Hb. }
  destruct (gorm_facts.First_ok _ _ _ _ _ _ Hf Hok) as [-> Hl].
  destruct (gorm_facts.lookup_In _ _ _ Hl) as [_ Hid].
  assert (Z.of_N (ID (merge user supplied)) = id) as Hmid.
  { unfold gorm.hasId in Hid. now apply Z.eqb_eq in Hid. }
  pose proof (gorm_facts.Save_existing (snd (gorm.statement db))
                (merge user supplied)) as Hsave.
  destruct (gorm.Save (snd (gorm.statement db)) (merge user supplied))
    as [[db2 saved] saveResult].
  split; [intros C; apply Hs in C; discriminate|].
  split; [intros C; apply Hb in C; discriminate|].
  intros _ _ Hnz.
  destruct Hsave as (-> & Hsaved & _).
  - exact Hnz.
  - rewrite Hmid, gorm_facts.statement_rows, Hl. discriminate.
  - split; [reflexivity|]. split; [reflexivity|].
    intros Hr. rewrite <- Hmid. now apply Hsaved.
Qed.

Lemma updateUser_field_rules_witness :
  updateUser annDB http.NewRecorder
    (request "1" (object [("name", json.Str "Bo")])) =
  (annDB,
   errorResponse "Name must be at least 3 characters" http.StatusBadRequest)
  /\
  updateUser annDB http.NewRecorder
    (request "1" (object [("name", json.Str "Bob")])) =
  ({| gorm.rows := [ {| ID := 1; Name := "Bob"; Email := "ann@example.com" |} ];
      gorm.seq := 1; gorm.faults := [] |},
   jsonResponse http.StatusOK
     (json.ofUser {| ID := 1; Name := "Bob"; Email := "ann@example.com" |})).
Proof.
  split.
  - pose proof (updateUser_field_rules annDB
                  (request "1" (object [("name", json.Str "Bo")]))
                  1%Z annDB ann (gorm.ok 1)
                  {| ID := 0; Name := "Bo"; Email := "" |}
                  eq_refl eq_refl eq_refl eq_refl) as H.
    destruct (updateUser annDB http.NewRecorder
                (request "1" (object [("name", json.Str "Bo")])))
      as [db' w].
    destruct H as (H & _).
    destruct H as [-> ->]; [|reflexivity].
    split; [discriminate | simpl; lia].
  - pose proof (updateUser_field_rules annDB
                  (request "1" (object [("name", json.Str "Bob")]))
                  1%Z annDB ann (gorm.ok 1)
                  {| ID := 0; Name := "Bob"; Email := "" |}
                  eq_refl eq_refl eq_refl eq_refl) as H.
    destruct (updateUser annDB http.NewRecorder
                (request "1" (object [("name", json.Str "Bob")])))
      as [db' w].
    destruct H as (_ & _ & H).
    destruct H as (-> & -> & _); [| | discriminate | reflexivity].
    + intros [_ C]. simpl in C. lia.
    + intros [C _]. now contradiction C.
Defined.

(** C3.  Every row that [createUser] or [updateUser] writes has a
    non-empty email that [isValidEmail] accepts: a row that [createUser]
    adds is such a row, and a row that [updateUser] writes is one, or keeps
    an email that was stored before.  So a table whose rows all have such an
    email stays one under every handler. *)
Theorem writes_keep_emails_valid
  (db : gorm.DB) (w : http.ResponseWriter) (r : Request) :
  (forall u, In u (gorm.rows (fst (createUser db w r))) ->
             In u (gorm.rows db) \/ validRow u) /\
  (forall u, In u (gorm.rows (fst (updateUser db w r))) ->
             In u (gorm.rows db) \/ validRow u \/
             exists stored,
               In stored (gorm.rows db) /\ Email u = Email stored) /\
  (Invariant db ->
   Invariant (fst (createUser db w r)) /\
   Invariant (fst (updateUser db w r)) /\
   Invariant (fst (deleteUser db w r)) /\
   Invariant (fst (getUsers db w r))).
Proof.
  split; [intros u; apply createUser_new_rows|].
  split; [intros u; apply updateUser_new_rows|].
  unfold Invariant. rewrite Forall_forall. intros Inv.
  split; [|split; [|split]]; rewrite Forall_forall.
  - intros u Hu. apply createUser_new_rows in Hu. destruct Hu; auto.
  - intros u Hu. apply updateUser_new_rows in Hu.
    destruct Hu as [Hu | [Hu | (stored & Hs & Hu)]]; auto.
    unfold validRow. rewrite Hu. now apply Inv.
  - unfold deleteUser.
    destruct (strconv.Atoi (Vars r "id")) as [id|]; [|exact Inv].
    pose proof (gorm_facts.Delete_rows db id) as Hd.
    destruct (gorm.Delete db id) as [db1 result]. cbn [fst] in Hd.
    assert (forall u, In u (gorm.rows db1) -> validRow u) as H.
    { intros u Hu. apply Inv.
      destruct Hd as [Hd | Hd]; rewrite Hd in Hu; [exact Hu|].
      now apply filter_In in Hu. }
    destruct (gorm.Error result); exact H.
  - unfold getUsers, gorm.Find.
    pose proof (gorm_facts.statement_rows db) as Hs.
    destruct (gorm.statement db) as [fails db1]. cbn [snd] in Hs.
    destruct fails; cbn; rewrite Hs; exact Inv.
Qed.

Lemma writes_keep_emails_valid_witness :
  Invariant annDB /\
  Invariant
    (fst (updateUser annDB http.NewRecorder
            (request "1" (object [("email", json.Str "ann@example.org")])))).
Proof.
  assert (Invariant annDB) as Inv.
  { constructor; [|constructor]. split; [discriminate | reflexivity]. }
  split; [exact Inv|].
  apply (writes_keep_emails_valid annDB http.NewRecorder
           (request "1" (object [("email", json.Str "ann@example.org")]))).
  exact Inv.
Defined.

(** C4, on the code.  A PUT that passes id parsing, lookup, decoding and
    validation, and whose save then fails: the handler answers 200 with
    the merged record, not 500, and the row is as it was.  Once with the
    connection failing on the save, once with a name that the column
    refuses. *)
Theorem updateUser_reports_success_when_save_fails :
  (gorm.Error (snd (gorm.Save (snd (gorm.statement flakyDB)) bob))
   = Some gorm.ErrDriver /\
   updateUser flakyDB http.NewRecorder
     (request "1" (object [("name", json.Str "Bob")]))
   = (annDB, jsonResponse http.StatusOK (json.ofUser bob))) /\
  (let bob0 := {| ID := 1; Name := bobNUL; Email := "ann@example.com" |} in
   gorm.Error (snd (gorm.Save annDB bob0)) = Some gorm.ErrDriver /\
   updateUser annDB http.NewRecorder
     (request "1" (object [("name", json.Str bobNUL)]))
   = (annDB, jsonResponse http.StatusOK (json.ofUser bob0))).
Proof. repeat split. Qed.

(** C5, as stated, fails: with Ann's row alone in the table, DELETE on id 2
    is answered 204, and so is a second DELETE on id 1. *)
Lemma deleteUser_absent_id_is_not_500 :
  gorm.lookup (gorm.rows annDB) 2 = None /\
  deleteUser annDB http.NewRecorder (request "2" json.Invalid)
  = (annDB, emptyResponse http.StatusNoContent) /\
  (let '(db1, w1) :=
     deleteUser annDB http.NewRecorder (request "1" json.Invalid) in
   let '(db2, w2) :=
     deleteUser db1 http.NewRecorder (request "1" json.Invalid) in
   gorm.rows db1 = [] /\
   http.Status w1 = http.StatusNoContent /\
   http.Status w2 = http.StatusNoContent /\
   http.Status w2 <> http.StatusInternalServerError).
Proof. repeat split. discriminate. Qed.

Lemma deleteUser_absent_parsed db r id :
  strconv.Atoi (Vars r "id") = Some id ->
  gorm.lookup (gorm.rows db) id = None ->
  let '(db', w) := deleteUser db http.NewRecorder r in
  db' = snd (gorm.statement db) /\
  gorm.rows db' = gorm.rows db /\
  w = if fst (gorm.statement db)
      then errorResponse "Failed to delete user"
             http.StatusInternalServerError
      else emptyResponse http.StatusNoContent.
Proof.
  intros Ha Hl. unfold deleteUser, gorm.Delete. rewrite Ha.
  pose proof (gorm_facts.statement_rows db) as Hs.
  destruct (gorm.statement db) as [fails db0]. cbn [fst snd] in *.
  destruct fails; cbn.
  - auto.
  - rewrite <- Hs in Hl. rewrite (gorm_facts.filter_absent _ _ Hl).
    split; [now destruct db0 | auto].
Qed.

(** C5, amended.  DELETE with an id that is numeric, fits [int] and no row
    has: the statement deletes nothing and is no error, so the answer is
    204 with an empty body; the answer is 500 only when the store fails to
    carry the statement out.  Either way the rows are as before, and the
    handler returns.  A numeric id whose number does not fit [int] is
    answered 400 and the store is not touched. *)
Theorem deleteUser_absent_id (db : gorm.DB) (r : Request) :
  (numeric (Vars r "id") = true -> fitsInt (Vars r "id") = true ->
   gorm.lookup (gorm.rows db) (idValue (Vars r "id")) = None ->
   let '(db', w) := deleteUser db http.NewRecorder r in
   db' = snd (gorm.statement db) /\
   gorm.rows db' = gorm.rows db /\
   w = if fst (gorm.statement db)
       then errorResponse "Failed to delete user"
              http.StatusInternalServerError
       else emptyResponse http.StatusNoContent) /\
  (numeric (Vars r "id") = true -> fitsInt (Vars r "id") = false ->
   deleteUser db http.NewRecorder r
   = (db, errorResponse "Invalid user ID" http.StatusBadRequest)).
Proof.
  split.
  - intros Hn Hf Hl.
    apply deleteUser_absent_parsed with (id := idValue (Vars r "id"));
      [|exact Hl].
    now rewrite (strconv_facts.Atoi_spec _ Hn), Hf.
  - intros Hn Hf. unfold deleteUser.
    now rewrite (strconv_facts.Atoi_spec _ Hn), Hf.
Qed.

Lemma deleteUser_absent_id_witness :
  deleteUser annDB http.NewRecorder (request "2" json.Invalid)
  = (annDB, emptyResponse http.StatusNoContent) /\
  deleteUser annDB http.NewRecorder (request beyondInt json.Invalid)
  = (annDB, errorResponse "Invalid user ID" http.StatusBadRequest).
Proof.
  split.
  - destruct (deleteUser_absent_id annDB (request "2" json.Invalid))
      as [H _].
    specialize (H eq_refl eq_refl eq_refl).
    destruct (deleteUser annDB http.NewRecorder (request "2" json.Invalid))
      as [db' w].
    destruct H as (-> & _ & ->). reflexivity.
  - destruct (deleteUser_absent_id annDB (request beyondInt json.Invalid))
      as [_ H].
    apply H; reflexivity.
Defined.

(** C6, as stated, fails: a body that gives an [id] gets that id back.  On
    the empty table the sequence would give 1; the answer carries the 7 of
    the body, and the sequence has not moved. *)
Lemma createUser_id_from_the_body :
  let body := object [("id", json.Number "7"); ("name", json.Str "Ann");
                      ("email", json.Str "ann@example.com")] in
  let ann7 := {| ID := 7; Name := "Ann"; Email := "ann@example.com" |} in
  createUser emptyDB http.NewRecorder (request "" body)
  = ({| gorm.rows := [ann7]; gorm.seq := 0; gorm.faults := [] |},
     jsonResponse http.StatusCreated (json.ofUser ann7)) /\
  ID ann7 <> (gorm.seq emptyDB + 1)%N.
Proof. split; [reflexivity | discriminate]. Qed.

(** C6, amended.  POST with a non-empty name and a valid email that the
    store accepts: the answer is 201 with the JSON of the created row,
    which has the submitted name and email and a positive id; the id is the
    next value of the sequence when the body gives none (or 0), and the id
    of the body otherwise. *)
Theorem createUser_created db r user db1 created result :
  json.Decode (Body r) zeroUser = Some user ->
  Name user <> "" ->
  isValidEmail (Email user) = true ->
  gorm.Create db user = (db1, created, result) ->
  gorm.Error result = None ->
  createUser db http.NewRecorder r
  = (db1, jsonResponse http.StatusCreated (json.ofUser created)) /\
  Name created = Name user /\
  Email created = Email user /\
  (0 < ID created)%N /\
  ID created = (if (ID user =? 0)%N then (gorm.seq db + 1)%N else ID user) /\
  In created (gorm.rows db1).
Proof.
  intros Hd Hn He Hc Hok.
  rewrite (createUser_accepted db r user Hd Hn He), Hc, Hok.
  destruct (gorm_facts.Create_ok _ _ _ _ _ Hc Hok) as (Hrows & Hcr & Hnz & _).
  split; [reflexivity|]. rewrite Hrows.
  split; [now rewrite Hcr|]. split; [now rewrite Hcr|].
  split; [lia|]. split; [now rewrite Hcr|].
  apply in_or_app. right. now left.
Qed.

Lemma createUser_created_witness :
  createUser emptyDB http.NewRecorder
    (request "" (object [("name", json.Str "Ann");
                         ("email", json.Str "ann@example.com")]))
  = (annDB, jsonResponse http.StatusCreated (json.ofUser ann)).
Proof.
  apply (createUser_created emptyDB
           (request "" (object [("name", json.Str "Ann");
                                ("email", json.Str "ann@example.com")]))
           {| ID := 0; Name := "Ann"; Email := "ann@example.com" |}
           annDB ann (gorm.ok 1)); try reflexivity.
  discriminate.
Defined.

(** C7, as stated, fails: a body can be well-formed JSON, with a name
    and a valid email, and still be answered 400 without an insert,
    because it does not fit [User]: here the [id] is negative.  Without
    that member the same body is inserted; and a well-formed body that is
    not an object is refused too. *)
Lemma createUser_refuses_well_formed_json :
  let fields := [("name", json.Str "Ann");
                 ("email", json.Str "ann@example.com")] in
  let body := json.Next (json.Object (("id", json.Number "-1") :: fields)) in
  body <> json.Invalid /\
  isValidEmail "ann@example.com" = true /\
  createUser emptyDB http.NewRecorder (request "" body)
  = (emptyDB,
     errorResponse "Invalid request payload" http.StatusBadRequest) /\
  createUser emptyDB http.NewRecorder (request "" (object fields))
  = (annDB, jsonResponse http.StatusCreated (json.ofUser ann)) /\
  createUser emptyDB http.NewRecorder (request "" (json.Next (json.Array [])))
  = (emptyDB,
     errorResponse "Invalid request payload" http.StatusBadRequest).
Proof. repeat split. discriminate. Qed.

(** C7, amended.  [createUser] answers 400, and inserts nothing, exactly
    when [Decode] refuses the body (malformed JSON, or a JSON value that
    does not fit [User]), or the decoded name is empty, or the decoded
    email is empty or fails the pattern; otherwise it goes on to the
    insert. *)
Theorem createUser_rejects_exactly (db : gorm.DB) (r : Request) :
  let '(db', w) := createUser db http.NewRecorder r in
  (http.Status w = http.StatusBadRequest <-> createRejected r) /\
  (createRejected r -> db' = db) /\
  (~ createRejected r ->
   exists user,
     json.Decode (Body r) zeroUser = Some user /\
     let '(db1, created, result) := gorm.Create db user in
     db' = db1 /\
     w = match gorm.Error result with
         | Some _ =>
             errorResponse "Failed to create user"
               http.StatusInternalServerError
         | None => jsonResponse http.StatusCreated (json.ofUser created)
         end).
Proof.
  unfold createRejected.
  destruct (json.Decode (Body r) zeroUser) as [user|] eqn:Hd.
  - destruct (String.eqb (Name user) "") eqn:Hn.
    + unfold createUser. rewrite Hd, Hn.
      apply eqb_empty_true in Hn.
      split; [|split]; [split; auto | auto | tauto].
    + destruct (isValidEmail (Email user)) eqn:He.
      * apply eqb_empty_false in Hn.
        rewrite (createUser_accepted db r user Hd Hn He).
        assert (Email user <> "") as Hne.
        { intros C. rewrite C in He. discriminate He. }
        destruct (gorm.Create db user) as [[db1 created] result] eqn:Hc.
        split; [|split].
        -- split.
           ++ destruct (gorm.Error result); discriminate.
           ++ intros [C | [C | C]]; congruence.
        -- intros [C | [C | C]]; congruence.
        -- intros _. exists user. split; [reflexivity|].
           rewrite Hc. auto.
      * unfold createUser. rewrite Hd, Hn, He, orb_true_r.
        split; [|split]; [split; auto | auto | tauto].
  - unfold createUser. rewrite Hd.
    split; [|split]; [split; auto | auto | tauto].
Qed.

Lemma createUser_rejects_exactly_witness :
  createUser emptyDB http.NewRecorder
    (request "" (object [("name", json.Str "");
                         ("email", json.Str "ann@example.com")]))
  = (emptyDB, errorResponse "Name is required" http.StatusBadRequest) /\
  http.Status
    (snd (createUser emptyDB http.NewRecorder
            (request "" (object [("name", json.Str "Ann");
                                 ("email", json.Str "not-an-email")]))))
  = http.StatusBadRequest.
Proof.
  split; [reflexivity|].
  pose proof (createUser_rejects_exactly emptyDB
                (request "" (object [("name", json.Str "Ann");
                                     ("email", json.Str "not-an-email")])))
    as H.
  destruct (createUser emptyDB http.NewRecorder
              (request "" (object [("name", json.Str "Ann");
                                   ("email", json.Str "not-an-email")])))
    as [db' w].
  destruct H as [H _]. apply H.
  unfold createRejected. cbn. right. right. reflexivity.
Defined.

(** C8, as stated, fails: the id [2^63] is numeric and no user has it, and
    the answer is 400, not 404, because [Atoi] refuses a number beyond
    [int]. *)
Lemma updateUser_numeric_id_beyond_int :
  numeric beyondInt = true /\
  gorm.lookup (gorm.rows annDB) (idValue beyondInt) = None /\
  updateUser annDB http.NewRecorder
    (request beyondInt (object [("name", json.Str "Bob")]))
  = (annDB, errorResponse "Invalid user ID" http.StatusBadRequest) /\
  http.StatusBadRequest <> http.StatusNotFound.
Proof. repeat split. discriminate. Qed.

Lemma updateUser_unparsed_id db r :
  strconv.Atoi (Vars r "id") = None ->
  updateUser db http.NewRecorder r =
  (db, errorResponse "Invalid user ID" http.StatusBadRequest).
Proof. intros Ha. unfold updateUser. now rewrite Ha. Qed.

Lemma updateUser_unknown_id db r id :
  strconv.Atoi (Vars r "id") = Some id ->
  gorm.lookup (gorm.rows db) id = None ->
  forall body,
    updateUser db http.NewRecorder {| Vars := Vars r; Body := body |} =
    (snd (gorm.statement db),
     errorResponse "User not found" http.StatusNotFound).
Proof.
  intros Ha Hl body. unfold updateUser. cbn [Vars Body]. rewrite Ha.
  pose proof (gorm_facts.First_absent db zeroUser id Hl) as Hf.
  destruct (gorm.First db zeroUser id) as [[db1 user] result].
  destruct Hf as [-> Hr].
  destruct (gorm.Error result); [reflexivity | now contradiction Hr].
Qed.

(** C8, amended.  [updateUser] answers 400 when the id is not numeric, and
    also when it is numeric but its number does not fit [int] (whenever
    [Atoi] refuses it); it answers 404 when the id is numeric, fits [int]
    and no stored user has it; the lookup comes before the body is read,
    so the 404 is the same whatever the body is.  Neither answer changes
    a row. *)
Theorem updateUser_bad_or_unknown_id (db : gorm.DB) (r : Request) :
  (numeric (Vars r "id") = false ->
   updateUser db http.NewRecorder r =
   (db, errorResponse "Invalid user ID" http.StatusBadRequest)) /\
  (numeric (Vars r "id") = true -> fitsInt (Vars r "id") = false ->
   updateUser db http.NewRecorder r =
   (db, errorResponse "Invalid user ID" http.StatusBadRequest)) /\
  (strconv.Atoi (Vars r "id") = None ->
   updateUser db http.NewRecorder r =
   (db, errorResponse "Invalid user ID" http.StatusBadRequest)) /\
  (numeric (Vars r "id") = true -> fitsInt (Vars r "id") = true ->
   gorm.lookup (gorm.rows db) (idValue (Vars r "id")) = None ->
   forall body,
     updateUser db http.NewRecorder {| Vars := Vars r; Body := body |} =
     (snd (gorm.statement db),
      errorResponse "User not found" http.StatusNotFound)) /\
  (forall id,
     strconv.Atoi (Vars r "id") = Some id ->
     gorm.lookup (gorm.rows db) id = None ->
     forall body,
       updateUser db http.NewRecorder {| Vars := Vars r; Body := body |} =
       (snd (gorm.statement db),
        errorResponse "User not found" http.StatusNotFound)).
Proof.
  split; [|split; [|split; [|split]]].
  - intros Hn. apply updateUser_unparsed_id.
    now apply strconv_facts.not_numeric.
  - intros Hn Hf. apply updateUser_unparsed_id.
    now rewrite (strconv_facts.Atoi_spec _ Hn), Hf.
  - apply updateUser_unparsed_id.
  - intros Hn Hf Hl. apply updateUser_unknown_id with (id := idValue (Vars r "id")).
    + now rewrite (strconv_facts.Atoi_spec _ Hn), Hf.
    + exact Hl.
  - apply updateUser_unknown_id.
Qed.

Lemma updateUser_bad_or_unknown_id_witness :
  http.Status (snd (updateUser annDB http.NewRecorder
                      (request "abc" json.Invalid)))
  = http.StatusBadRequest /\
  http.Status (snd (updateUser annDB http.NewRecorder
                      (request beyondInt json.Invalid)))
  = http.StatusBadRequest /\
  http.Status (snd (updateUser annDB http.NewRecorder
                      (request "2" (object [("name", json.Str "Bob")]))))
  = http.StatusNotFound.
Proof.
  split; [|split].
  - destruct (updateUser_bad_or_unknown_id annDB (request "abc" json.Invalid))
      as [H _].
    rewrite H; reflexivity.
  - destruct (updateUser_bad_or_unknown_id annDB
                (request beyondInt json.Invalid)) as (_ & H & _).
    rewrite H; reflexivity.
  - destruct (updateUser_bad_or_unknown_id annDB (request "2" json.Invalid))
      as (_ & _ & _ & H & _).
    specialize (H eq_refl eq_refl eq_refl (object [("name", json.Str "Bob")])).
    cbn [Vars request] in H. unfold request. rewrite H. reflexivity.
Defined.

(** C9.  [deleteUser] answers 400 when the id is not numeric (and whenever
    [Atoi] refuses it), and the store is not touched; when the id is a
    number and the store carries the delete out, the answer is 204 with an
    empty body, and a GET after it either fails in the store or lists the
    rows, none of which has that id; it lists them whenever its own
    statement goes through. *)
Theorem deleteUser_then_getUsers (db : gorm.DB) (r : Request) :
  (numeric (Vars r "id") = false ->
   deleteUser db http.NewRecorder r
   = (db, errorResponse "Invalid user ID" http.StatusBadRequest)) /\
  (strconv.Atoi (Vars r "id") = None ->
   deleteUser db http.NewRecorder r
   = (db, errorResponse "Invalid user ID" http.StatusBadRequest)) /\
  (forall id db1 result,
     strconv.Atoi (Vars r "id") = Some id ->
     gorm.Delete db id = (db1, result) ->
     gorm.Error result = None ->
     deleteUser db http.NewRecorder r
     = (db1, emptyResponse http.StatusNoContent) /\
     forall r',
       let '(db2, w2) := getUsers db1 http.NewRecorder r' in
       (forall u, In u (gorm.rows db1) -> Z.of_N (ID u) <> id) /\
       w2 = if fst (gorm.statement db1)
            then errorResponse "Failed to retrieve users"
                   http.StatusInternalServerError
            else jsonResponse http.StatusOK (json.ofUsers (gorm.rows db1))).
Proof.
  assert (strconv.Atoi (Vars r "id") = None ->
          deleteUser db http.NewRecorder r
          = (db, errorResponse "Invalid user ID" http.StatusBadRequest))
    as H400.
  { intros Ha. unfold deleteUser. now rewrite Ha. }
  split; [|split].
  - intros Hn. apply H400. now apply strconv_facts.not_numeric.
  - exact H400.
  - intros id db1 result Ha Hd Hok. split.
    + unfold deleteUser. now rewrite Ha, Hd, Hok.
    + assert (forall u, In u (gorm.rows db1) -> Z.of_N (ID u) <> id) as Hgone.
      { intros u Hu. rewrite (gorm_facts.Delete_ok _ _ _ _ Hd Hok) in Hu.
        apply filter_In in Hu. destruct Hu as [_ Hu].
        unfold gorm.hasId in Hu. apply negb_true_iff in Hu.
        now apply Z.eqb_neq in Hu. }
      intros r'. unfold getUsers, gorm.Find.
      pose proof (gorm_facts.statement_rows db1) as Hs.
      destruct (gorm.statement db1) as [fails db2]. cbn [fst snd] in *.
      destruct fails; cbn; (split; [exact Hgone|]);
        [reflexivity | now rewrite Hs].
Qed.

Lemma deleteUser_then_getUsers_witness :
  deleteUser annDB http.NewRecorder (request "1" json.Invalid)
  = ({| gorm.rows := []; gorm.seq := 1; gorm.faults := [] |},
     emptyResponse http.StatusNoContent) /\
  http.Status (snd (deleteUser annDB http.NewRecorder
                      (request "x1" json.Invalid)))
  = http.StatusBadRequest.
Proof.
  destruct (deleteUser_then_getUsers annDB (request "1" json.Invalid))
    as (_ & _ & H).
  destruct (H 1%Z {| gorm.rows := []; gorm.seq := 1; gorm.faults := [] |}
              (gorm.ok 1) eq_refl eq_refl eq_refl) as [H1 _].
  split; [exact H1|].
  destruct (deleteUser_then_getUsers annDB (request "x1" json.Invalid))
    as [H2 _].
  rewrite H2; reflexivity.
Defined.

(** C10, as stated, fails in its last part: a name of one character that
    takes three bytes can be created and can also be set by an update,
    because [updateUser] measures the name with [len], in bytes. *)
Lemma updateUser_accepts_one_character :
  let renamed :=
    {| ID := 1; Name := oneCharacter; Email := "ann@example.com" |} in
  characters oneCharacter = 1 /\
  String.length oneCharacter = 3 /\
  createUser emptyDB http.NewRecorder
    (request "" (object [("name", json.Str oneCharacter);
                         ("email", json.Str "ann@example.com")]))
  = ({| gorm.rows := [renamed]; gorm.seq := 1; gorm.faults := [] |},
     jsonResponse http.StatusCreated (json.ofUser renamed)) /\
  updateUser annDB http.NewRecorder
    (request "1" (object [("name", json.Str oneCharacter)]))
  = ({| gorm.rows := [renamed]; gorm.seq := 1; gorm.faults := [] |},
     jsonResponse http.StatusOK (json.ofUser renamed)).
Proof. repeat split. Qed.

(** C10, amended.  [createUser] asks nothing of the length of a name: any
    non-empty name, with a valid email, passes the create rules and goes
    to the store, and is a row once the store accepts it.  When that name
    has fewer than 3 bytes, [updateUser] answers 400 to a request that
    supplies it for an existing user. *)
Theorem createUser_no_minimum_name_length db r user :
  json.Decode (Body r) zeroUser = Some user ->
  Name user <> "" ->
  isValidEmail (Email user) = true ->
  (let '(db1, created, result) := gorm.Create db user in
   createUser db http.NewRecorder r =
   (db1, match gorm.Error result with
         | Some _ =>
             errorResponse "Failed to create user"
               http.StatusInternalServerError
         | None => jsonResponse http.StatusCreated (json.ofUser created)
         end) /\
   (gorm.Error result = None ->
    In created (gorm.rows db1) /\ Name created = Name user)) /\
  (String.length (Name user) < 3 ->
   forall db2 r2 id db3 stored found supplied,
     strconv.Atoi (Vars r2 "id") = Some id ->
     gorm.First db2 zeroUser id = (db3, stored, found) ->
     gorm.Error found = None ->
     json.Decode (Body r2) zeroUser = Some supplied ->
     Name supplied = Name user ->
     updateUser db2 http.NewRecorder r2 =
     (db3, errorResponse "Name must be at least 3 characters"
             http.StatusBadRequest)).
Proof.
  intros Hd Hn He. split.
  - rewrite (createUser_accepted db r user Hd Hn He).
    destruct (gorm.Create db user) as [[db1 created] result] eqn:Hc.
    split; [reflexivity|]. intros Hok.
    destruct (gorm_facts.Create_ok _ _ _ _ _ Hc Hok) as (Hrows & -> & _).
    rewrite Hrows. split; [|reflexivity].
    apply in_or_app. right. now left.
  - intros Hlen db2 r2 id db3 stored found supplied Ha Hf Hok Hd2 Hname.
    rewrite updateUser_eq, Ha, Hf, Hok, Hd2.
    assert (shortName supplied) as Hs.
    { unfold shortName. rewrite Hname. auto. }
    apply shortName_iff in Hs. now rewrite Hs.
Qed.

Lemma createUser_no_minimum_name_length_witness :
  let a := {| ID := 1; Name := "A"; Email := "a@b.co" |} in
  let db1 := {| gorm.rows := [a]; gorm.seq := 1; gorm.faults := [] |} in
  createUser emptyDB http.NewRecorder
    (request "" (object [("name", json.Str "A"); ("email", json.Str "a@b.co")]))
  = (db1, jsonResponse http.StatusCreated (json.ofUser a)) /\
  updateUser annDB http.NewRecorder
    (request "1" (object [("name", json.Str "A")]))
  = (annDB,
     errorResponse "Name must be at least 3 characters"
       http.StatusBadRequest).
Proof.
  pose proof (createUser_no_minimum_name_length emptyDB
                (request "" (object [("name", json.Str "A");
                                     ("email", json.Str "a@b.co")]))
                {| ID := 0; Name := "A"; Email := "a@b.co" |}
                eq_refl) as H.
  destruct H as [[H _] H2]; [discriminate | reflexivity |].
  split.
  - exact H.
  - assert (String.length "A" < 3) as Hlen by (simpl; lia).
    apply (H2 Hlen annDB _ 1%Z annDB ann (gorm.ok 1)
              {| ID := 0; Name := "A"; Email := "" |});
      reflexivity.
Defined.

(* ================================================================== *)
(** * Further properties: [isValidEmail] *)
(* ================================================================== *)

Module email_more.
Import email_facts.

Lemma forallb_impl {A} (p q : A -> bool) (l : list A) :
  (forall x, p x = true -> q x = true) ->
  forallb p l = true -> forallb q l = true.
Proof.
  intros Hpq. induction l as [|x l IH]; simpl; [reflexivity|].
  rewrite !andb_true_iff. intros [Hx Hl]. auto.
Qed.

Lemma count_none (p : ascii -> bool) (x : ascii) (l : list ascii) :
  p x = false -> forallb p l = true -> count_occ ascii_dec l x = 0.
Proof.
  intros Hx. induction l as [|c l IH]; simpl; [reflexivity|].
  rewrite andb_true_iff. intros [Hc Hl].
  destruct (ascii_dec c x) as [-> | _]; [congruence | auto].
Qed.

Lemma domainChar_allowed c : domainChar c = true -> allowedByte c = true.
Proof. destruct c as [[] [] [] [] [] [] [] []]; cbv; congruence. Qed.

Lemma isLetter_allowed c : isLetter c = true -> allowedByte c = true.
Proof. destruct c as [[] [] [] [] [] [] [] []]; cbv; congruence. Qed.

Lemma localChar_allowed c : localChar c = true -> allowedByte c = true.
Proof. unfold allowedByte. now intros ->. Qed.

(** *** Lower case *)

Lemma bytes_lowercase (s : string) :
  list_ascii_of_string (lowercase s) = map json.lower (list_ascii_of_string s).
Proof.
  unfold lowercase.
  induction s as [|c s IH]; simpl; [reflexivity | now rewrite IH].
Qed.

Lemma localChar_lower c : localChar (json.lower c) = localChar c.
Proof. destruct c as [[] [] [] [] [] [] [] []]; reflexivity. Qed.

Lemma domainChar_lower c : domainChar (json.lower c) = domainChar c.
Proof. destruct c as [[] [] [] [] [] [] [] []]; reflexivity. Qed.

Lemma isLetter_lower c : isLetter (json.lower c) = isLetter c.
Proof. destruct c as [[] [] [] [] [] [] [] []]; reflexivity. Qed.

Lemma lower_at c : json.lower c = "@"%char -> c = "@"%char.
Proof. destruct c as [[] [] [] [] [] [] [] []]; cbv; congruence. Qed.

Lemma lower_dot c : json.lower c = "."%char -> c = "."%char.
Proof. destruct c as [[] [] [] [] [] [] [] []]; cbv; congruence. Qed.

Lemma forallb_map_lower (p : ascii -> bool) (l : list ascii) :
  (forall c, p (json.lower c) = p c) ->
  forallb p (map json.lower l) = forallb p l.
Proof.
  intros E. induction l as [|c l IH]; simpl; [reflexivity|].
  now rewrite E, IH.
Qed.

Lemma map_nil_iff {A B} (f : A -> B) (l : list A) : map f l = [] <-> l = [].
Proof. destruct l; simpl; split; congruence. Qed.

Lemma shape_lower (w : list ascii) : shape (map json.lower w) <-> shape w.
Proof.
  split.
  - intros (l' & d' & t' & E & Hl & Hl' & Hd & Hd' & Ht & Ht').
    apply map_eq_app in E. destruct E as (l & w1 & -> & <- & E).
    apply map_eq_cons in E. destruct E as (a & w2 & -> & Ea & E).
    apply lower_at in Ea. subst a.
    apply map_eq_app in E. destruct E as (d & w3 & -> & <- & E).
    apply map_eq_cons in E. destruct E as (p & t & -> & Ep & <-).
    apply lower_dot in Ep. subst p.
    exists l, d, t.
    rewrite (forallb_map_lower _ _ localChar_lower) in Hl'.
    rewrite (forallb_map_lower _ _ domainChar_lower) in Hd'.
    rewrite (forallb_map_lower _ _ isLetter_lower) in Ht'.
    rewrite length_map in Ht.
    repeat split; try assumption.
    + intros C. apply Hl. now rewrite C.
    + intros C. apply Hd. now rewrite C.
  - intros (l & d & t & -> & Hl & Hl' & Hd & Hd' & Ht & Ht').
    exists (map json.lower l), (map json.lower d), (map json.lower t).
    rewrite map_app. cbn [map]. rewrite map_app. cbn [map].
    rewrite (forallb_map_lower _ _ localChar_lower).
    rewrite (forallb_map_lower _ _ domainChar_lower).
    rewrite (forallb_map_lower _ _ isLetter_lower).
    rewrite length_map.
    repeat split; try assumption.
    + intros C. apply Hl. now apply map_nil_iff in C.
    + intros C. apply Hd. now apply map_nil_iff in C.
Qed.

End email_more.

(** X1.  An email that [isValidEmail] accepts has exactly one [@], is made
    of letters, digits and the bytes [._%+-@] only (so it has no space, no
    newline and no byte outside ASCII), and is 6 bytes long or more. *)
Theorem isValidEmail_anatomy (s : string) :
  isValidEmail s = true ->
  occurrences "@" s = 1 /\
  all allowedByte s = true /\
  6 <= String.length s.
Proof.
  intros H. apply email_facts.isValidEmail_shape in H.
  destruct H as (l & d & t & E & Hl & Hl' & Hd & Hd' & Ht & Ht').
  unfold occurrences, all. rewrite email_facts.bytes_length, E.
  split; [|split].
  - rewrite count_occ_app. cbn [count_occ].
    destruct (ascii_dec "@" "@") as [_ | C]; [|now contradiction C].
    rewrite count_occ_app. cbn [count_occ].
    destruct (ascii_dec "." "@") as [C | _]; [discriminate C|].
    rewrite (email_more.count_none localChar "@" l eq_refl Hl').
    rewrite (email_more.count_none domainChar "@" d eq_refl Hd').
    rewrite (email_more.count_none isLetter "@" t eq_refl Ht').
    reflexivity.
  - rewrite forallb_app. cbn [forallb]. rewrite forallb_app. cbn [forallb].
    rewrite (email_more.forallb_impl _ _ l email_more.localChar_allowed Hl').
    rewrite (email_more.forallb_impl _ _ d email_more.domainChar_allowed Hd').
    rewrite (email_more.forallb_impl _ _ t email_more.isLetter_allowed Ht').
    reflexivity.
  - destruct l; [now contradiction Hl|]. destruct d; [now contradiction Hd|].
    rewrite length_app. cbn [length]. rewrite length_app. cbn [length]. lia.
Qed.

Lemma isValidEmail_anatomy_witness :
  occurrences "@" "ann@example.com" = 1 /\
  all allowedByte "ann@example.com" = true /\
  6 <= String.length "ann@example.com".
Proof. apply (isValidEmail_anatomy "ann@example.com"). reflexivity. Defined.

(** X2.  [isValidEmail] does not look at the case of letters: a string and
    its lower-case form are accepted or refused together. *)
Theorem isValidEmail_ignores_case (s : string) :
  isValidEmail (lowercase s) = isValidEmail s.
Proof.
  apply eq_true_iff_eq.
  rewrite !email_facts.isValidEmail_shape, email_more.bytes_lowercase.
  apply email_more.shape_lower.
Qed.

(* ================================================================== *)
(** * Further properties: ids in decimal *)
(* ================================================================== *)

Module decimal_facts.

Ltac read_digit :=
  cbn [NilEmpty.string_of_uint strconv.digits];
  lazymatch goal with
  | |- context [strconv.digit ?c] =>
      let v := eval vm_compute in (strconv.digit c) in
      change (strconv.digit c) with v
  end;
  cbv beta iota.

Lemma digits_of_uint_acc (d : Decimal.uint) : forall acc : positive,
  strconv.digits (NilEmpty.string_of_uint d) (Z.pos acc)
  = Some (Z.pos (Pos.of_uint_acc d acc)).
Proof.
  induction d; intros acc; cbn [Pos.of_uint_acc]; [reflexivity | ..];
    read_digit; rewrite <- IHd; f_equal; lia.
Qed.

Lemma digits_of_uint (d : Decimal.uint) :
  strconv.digits (NilEmpty.string_of_uint d) 0 = Some (Z.of_N (Pos.of_uint d)).
Proof.
  induction d; cbn [Pos.of_uint]; [reflexivity | read_digit; exact IHd | ..];
    read_digit; apply digits_of_uint_acc.
Qed.

Lemma decimal_nonempty (n : N) :
  json.decimal n = NilEmpty.string_of_uint (N.to_uint n) /\
  json.decimal n <> "".
Proof.
  unfold json.decimal, NilZero.string_of_uint.
  destruct n as [|p]; [split; [reflexivity | discriminate]|].
  cbn [N.to_uint]. pose proof (DecimalPos.Unsigned.to_uint_nonnil p) as H.
  destruct (Pos.to_uint p); [now contradiction H | ..];
    (split; [reflexivity | discriminate]).
Qed.

(** The decimal text of a number reads back as the number. *)
Lemma digits_decimal (n : N) :
  strconv.digits (json.decimal n) 0 = Some (Z.of_N n).
Proof.
  destruct (decimal_nonempty n) as [-> _].
  rewrite digits_of_uint. change (Pos.of_uint (N.to_uint n)) with
    (N.of_uint (N.to_uint n)).
  now rewrite DecimalN.Unsigned.of_to.
Qed.

Lemma Atoi_decimal (n : N) :
  (Z.of_N n <= strconv.maxInt)%Z ->
  strconv.Atoi (json.decimal n) = Some (Z.of_N n).
Proof.
  intros H. unfold strconv.Atoi.
  destruct (decimal_nonempty n) as [_ Hne].
  pose proof (digits_decimal n) as Hd.
  destruct (json.decimal n) as [|c t] eqn:E; [now contradiction Hne|].
  assert (strconv.digit c <> None) as Hc.
  { cbn [strconv.digits] in Hd. destruct (strconv.digit c); congruence. }
  assert (match String c t with
          | String "-" t0 => (true, t0)
          | String "+" t0 => (false, t0)
          | _ => (false, String c t)
          end = (false, String c t)) as ->.
  { destruct c as [[] [] [] [] [] [] [] []]; try reflexivity;
      now contradiction Hc. }
  rewrite Hd.
  assert ((strconv.minInt <=? Z.of_N n)%Z = true) as ->.
  { apply Z.leb_le. unfold strconv.minInt. lia. }
  apply Z.leb_le in H. now rewrite H.
Qed.

Lemma decimal_inj (n m : N) : json.decimal n = json.decimal m -> n = m.
Proof.
  intros E. apply N2Z.inj.
  pose proof (digits_decimal n) as Hn. rewrite E, digits_decimal in Hn.
  congruence.
Qed.

Lemma ofUser_inj (u v : User) : json.ofUser u = json.ofUser v -> u = v.
Proof.
  unfold json.ofUser. intros E. injection E as Ei En Ee.
  apply decimal_inj in Ei. destruct u, v; simpl in *. congruence.
Qed.

End decimal_facts.

(* ================================================================== *)
(** * Further properties: the store under the handlers *)
(* ================================================================== *)

Module gorm_more.
Import gorm.

Lemma healthy_statement n db :
  healthy (S n) db ->
  fst (statement db) = false /\ healthy n (snd (statement db)).
Proof.
  unfold healthy, statement. destruct (faults db) as [|f fs] eqn:E.
  - intros _. cbn [fst snd]. rewrite E. split; [reflexivity|].
    now destruct n.
  - cbn [firstn forallb fst snd faults]. rewrite andb_true_iff.
    intros [Hf Hfs]. split; [now destruct f | exact Hfs].
Qed.

Lemma healthy_less n db : healthy (S n) db -> healthy n db.
Proof.
  unfold healthy. generalize (faults db) as l.
  induction n as [|n IH]; intros l; [reflexivity|].
  destruct l as [|f fs]; [reflexivity|].
  change (firstn (S (S n)) (f :: fs)) with (f :: firstn (S n) fs).
  change (firstn (S n) (f :: fs)) with (f :: firstn n fs).
  cbn [forallb]. rewrite !andb_true_iff. intros [Hf H]. auto.
Qed.

Lemma lookup_none l (i : N) :
  lookup l (Z.of_N i) = None <-> ~ In i (map ID l).
Proof.
  unfold lookup, hasId. induction l as [|x l IH]; simpl; [tauto|].
  destruct (Z.eqb_spec (Z.of_N (ID x)) (Z.of_N i)) as [E | E].
  - apply N2Z.inj in E. split; [discriminate | tauto].
  - rewrite IH. split; [|tauto]. intros H [C | C]; [|tauto].
    apply E. now rewrite C.
Qed.

Lemma lookup_last l u :
  lookup l (Z.of_N (ID u)) = None ->
  lookup (l ++ [u]) (Z.of_N (ID u)) = Some u.
Proof.
  unfold lookup. induction l as [|x l IH]; simpl; intros H.
  - unfold hasId. now rewrite Z.eqb_refl.
  - destruct (hasId (Z.of_N (ID u)) x); [discriminate | auto].
Qed.

(** *** The primary key *)

Lemma ID_replace v u : ID (replace v u) = ID u.
Proof.
  unfold replace. destruct (N.eqb_spec (ID u) (ID v)); congruence.
Qed.

Lemma map_ID_replace v l : map ID (map (replace v) l) = map ID l.
Proof.
  rewrite map_map. apply map_ext. intros u. apply ID_replace.
Qed.

Lemma keysOK_replace v l : keysOK l -> keysOK (map (replace v) l).
Proof.
  unfold keysOK. rewrite map_ID_replace. intros [Hn Hz]. split; [exact Hn|].
  rewrite Forall_forall in *. intros u Hu.
  apply in_map_iff in Hu. destruct Hu as (x & <- & Hx).
  rewrite ID_replace. auto.
Qed.

Lemma keysOK_last l u :
  keysOK l -> lookup l (Z.of_N (ID u)) = None -> ID u <> 0%N ->
  keysOK (l ++ [u]).
Proof.
  unfold keysOK. intros [Hn Hz] Hl Hu. split.
  - rewrite map_app. apply NoDup_app; [exact Hn | |].
    + constructor; [intros [] | constructor].
    + intros a Ha [<- | []]. now apply lookup_none in Hl.
  - apply Forall_app. split; [exact Hz|]. now constructor.
Qed.

Lemma keysOK_filter (p : User -> bool) l : keysOK l -> keysOK (filter p l).
Proof.
  unfold keysOK. intros [Hn Hz]. split.
  - induction l as [|x l IH]; simpl; [constructor|].
    inversion Hn as [|? ? Hx Hn']; subst. inversion Hz; subst.
    destruct (p x); [|auto]. simpl. constructor; [|auto].
    intros C. apply Hx. apply in_map_iff in C. destruct C as (y & E & Hy).
    apply filter_In in Hy. apply in_map_iff. exists y. tauto.
  - rewrite Forall_forall in *. intros u Hu. apply filter_In in Hu.
    now apply Hz.
Qed.

(** When one row has the [ID] of [v] and it is [v], replacing changes
    nothing. *)
Lemma replace_absent v l :
  ~ In (ID v) (map ID l) -> map (replace v) l = l.
Proof.
  induction l as [|x l IH]; simpl; intros H; [reflexivity|].
  unfold replace at 1. destruct (N.eqb_spec (ID x) (ID v)) as [E | E].
  - exfalso. apply H. now left.
  - rewrite IH; [reflexivity | tauto].
Qed.

Lemma replace_same v l :
  NoDup (map ID l) -> lookup l (Z.of_N (ID v)) = Some v ->
  map (replace v) l = l.
Proof.
  unfold lookup. induction l as [|x l IH]; simpl; intros Hn H; [reflexivity|].
  inversion Hn as [|? ? Hx Hn']; subst.
  unfold hasId in H at 1. unfold replace at 1.
  destruct (Z.eqb_spec (Z.of_N (ID x)) (Z.of_N (ID v))) as [E | E].
  - injection H as ->. rewrite N.eqb_refl.
    now rewrite replace_absent.
  - destruct (N.eqb_spec (ID x) (ID v)) as [C | _]; [now rewrite C in E|].
    now rewrite IH.
Qed.

(** *** The effect of each call on rows and sequence *)

Lemma statement_state db :
  rows (snd (statement db)) = rows db /\ seq (snd (statement db)) = seq db.
Proof. unfold statement. destruct (faults db); auto. Qed.

Lemma insert_keys db v :
  keysOK (rows db) -> keysOK (rows (fst (fst (insert db v)))).
Proof.
  intros K. destruct (insert db v) as [[db1 c] res] eqn:E. cbn [fst].
  destruct (Error res) eqn:Hr.
  - destruct (gorm_facts.insert_failed _ _ _ _ _ E) as [-> _];
      [congruence | exact K].
  - destruct (gorm_facts.insert_ok _ _ _ _ _ E Hr) as (-> & _ & Hz & Hl).
    now apply keysOK_last.
Qed.

Lemma insert_seq db v : (seq db <= seq (fst (fst (insert db v))))%N.
Proof.
  unfold insert. destruct (negb (storable v)); [cbn; lia|].
  destruct (ID v =? 0)%N.
  - destruct (maxInt8 <? seq db + 1)%N; [cbn; lia|].
    destruct (lookup (rows db) (Z.of_N (seq db + 1))); cbn; lia.
  - destruct (maxInt8 <? ID v)%N; [cbn; lia|].
    destruct (lookup (rows db) (Z.of_N (ID v))); cbn; lia.
Qed.

Lemma Create_keys db v :
  keysOK (rows db) -> keysOK (rows (fst (fst (Create db v)))).
Proof.
  unfold Create. destruct (statement_state db) as [Hr _].
  destruct (statement db) as [fails db0]. cbn [snd] in Hr.
  rewrite <- Hr. destruct fails; [auto | apply insert_keys].
Qed.

Lemma Create_seq db v : (seq db <= seq (fst (fst (Create db v))))%N.
Proof.
  unfold Create. destruct (statement_state db) as [_ Hs].
  destruct (statement db) as [fails db0]. cbn [snd] in Hs.
  rewrite <- Hs. destruct fails; [cbn; lia | apply insert_seq].
Qed.

(** A row that the sequence numbers takes the next value, and the
    sequence moves to it. *)
Lemma Create_numbered db v db1 c res :
  Create db v = (db1, c, res) -> Error res = None -> ID v = 0%N ->
  ID c = (seq db + 1)%N /\ seq db1 = (seq db + 1)%N.
Proof.
  unfold Create, insert. destruct (statement_state db) as [_ Hs].
  destruct (statement db) as [fails db0]. cbn [snd] in Hs.
  intros H Hok Hz. rewrite Hz in H. cbn [N.eqb] in H. rewrite <- Hs.
  destruct fails; [injection H as <- <- <-; discriminate|].
  destruct (negb (storable v)); [injection H as <- <- <-; discriminate|].
  destruct (maxInt8 <? seq db0 + 1)%N;
    [injection H as <- <- <-; discriminate|].
  destruct (lookup (rows db0) (Z.of_N (seq db0 + 1)));
    injection H as <- <- <-; [discriminate | auto].
Qed.

Lemma Save_keys db v :
  keysOK (rows db) -> keysOK (rows (fst (fst (Save db v)))).
Proof.
  intros K. unfold Save. destruct (ID v =? 0)%N; [now apply Create_keys|].
  destruct (statement_state db) as [Hr _].
  destruct (statement db) as [fails db0]. cbn [snd] in Hr.
  rewrite <- Hr in K. destruct fails; [exact K|].
  destruct (negb (storable v)); [exact K|].
  destruct (lookup (rows db0) (Z.of_N (ID v))).
  - cbn. now apply keysOK_replace.
  - destruct (statement_state db0) as [Hr' _].
    destruct (statement db0) as [fails db0']. cbn [snd] in Hr'.
    rewrite <- Hr' in K. destruct fails; [exact K | now apply insert_keys].
Qed.

Lemma Save_seq db v : (seq db <= seq (fst (fst (Save db v))))%N.
Proof.
  unfold Save. destruct (ID v =? 0)%N; [apply Create_seq|].
  destruct (statement_state db) as [_ Hs].
  destruct (statement db) as [fails db0]. cbn [snd] in Hs.
  rewrite <- Hs. destruct fails; [cbn; lia|].
  destruct (negb (storable v)); [cbn; lia|].
  destruct (lookup (rows db0) (Z.of_N (ID v))); [cbn; lia|].
  destruct (statement_state db0) as [_ Hs'].
  destruct (statement db0) as [fails db0']. cbn [snd] in Hs'.
  rewrite <- Hs'. destruct fails; [cbn; lia | apply insert_seq].
Qed.

(** Saving a record whose row is there, spelled out. *)
Lemma Save_there db v :
  ID v <> 0%N -> lookup (rows db) (Z.of_N (ID v)) <> None ->
  Save db v =
  let db0 := snd (statement db) in
  if fst (statement db) || negb (storable v)
  then (db0, v, failed ErrDriver)
  else (withRows db0 (map (replace v) (rows db)), v, ok 1).
Proof.
  intros Hz Hl. unfold Save. apply N.eqb_neq in Hz. rewrite Hz.
  destruct (statement_state db) as [Hr _].
  destruct (statement db) as [fails db0]. cbn [fst snd] in *.
  destruct fails; [reflexivity|]. cbn [orb].
  destruct (negb (storable v)); [reflexivity|].
  rewrite Hr. destruct (lookup (rows db) (Z.of_N (ID v))); [|congruence].
  reflexivity.
Qed.

Lemma Delete_state db id :
  seq (fst (Delete db id)) = seq db /\
  (rows (fst (Delete db id)) = rows db \/
   rows (fst (Delete db id)) = filter (fun u => negb (hasId id u)) (rows db)).
Proof.
  unfold Delete. destruct (statement_state db) as [Hr Hs].
  destruct (statement db) as [fails db0]. cbn [snd] in *.
  destruct fails; cbn; rewrite Hr; auto.
Qed.

Lemma lookup_filter l id :
  lookup (filter (fun u => negb (hasId id u)) l) id = None.
Proof.
  unfold lookup. induction l as [|x l IH]; simpl; [reflexivity|].
  destruct (hasId id x) eqn:E; simpl; [exact IH|]. now rewrite E.
Qed.

End gorm_more.

(* ================================================================== *)
(** * Further properties: the handlers *)
(* ================================================================== *)

(** The store after each handler, in terms of the calls it makes. *)
Lemma createUser_state db w r :
  fst (createUser db w r) = db \/
  exists user,
    json.Decode (Body r) zeroUser = Some user /\
    fst (createUser db w r) = fst (fst (gorm.Create db user)).
Proof.
  unfold createUser.
  destruct (json.Decode (Body r) zeroUser) as [user|]; [|now left].
  destruct (String.eqb (Name user) ""); [now left|].
  destruct (String.eqb (Email user) "" || negb (isValidEmail (Email user)));
    [now left|].
  right. exists user. split; [reflexivity|].
  destruct (gorm.Create db user) as [[db1 c] res].
  destruct (gorm.Error res); reflexivity.
Qed.

Lemma updateUser_state db w r :
  fst (updateUser db w r) = db \/
  exists id,
    strconv.Atoi (Vars r "id") = Some id /\
    (fst (updateUser db w r) = snd (gorm.statement db) \/
     exists user supplied,
       gorm.lookup (gorm.rows db) id = Some user /\
       fst (updateUser db w r)
       = fst (fst (gorm.Save (snd (gorm.statement db))
                     (merge user supplied)))).
Proof.
  rewrite updateUser_eq.
  destruct (strconv.Atoi (Vars r "id")) as [id|]; [|now left].
  right. exists id. split; [reflexivity|].
  pose proof (First_state db zeroUser id) as Hst.
  destruct (gorm.First db zeroUser id) as [[db1 user] result] eqn:Hf.
  cbn [fst] in Hst. subst db1.
  destruct (gorm.Error result) eqn:Hok; [now left|].
  destruct (gorm_facts.First_ok _ _ _ _ _ _ Hf Hok) as [_ Hl].
  destruct (json.Decode (Body r) zeroUser) as [supplied|]; [|now left].
  destruct (negb (String.eqb (Name supplied) "")
            && (String.length (Name supplied) <? 3)%nat); [now left|].
  destruct (negb (String.eqb (Email supplied) "")
            && negb (isValidEmail (Email supplied))); [now left|].
  right. exists user, supplied. split; [exact Hl|].
  destruct (gorm.Save (snd (gorm.statement db)) (merge user supplied))
    as [[db2 saved] res].
  reflexivity.
Qed.

Lemma deleteUser_state db w r :
  fst (deleteUser db w r) = db \/
  exists id,
    strconv.Atoi (Vars r "id") = Some id /\
    fst (deleteUser db w r) = fst (gorm.Delete db id).
Proof.
  unfold deleteUser.
  destruct (strconv.Atoi (Vars r "id")) as [id|]; [|now left].
  right. exists id. split; [reflexivity|].
  destruct (gorm.Delete db id) as [db1 res].
  destruct (gorm.Error res); reflexivity.
Qed.

Lemma getUsers_state db w r :
  fst (getUsers db w r) = snd (gorm.statement db).
Proof.
  unfold getUsers, gorm.Find.
  destruct (gorm.statement db) as [fails db1]. now destruct fails.
Qed.

Lemma handler_keeps route db w r :
  (keysOK (gorm.rows db) ->
   keysOK (gorm.rows (fst (HandleFunc route db w r)))) /\
  (Invariant db -> Invariant (fst (HandleFunc route db w r))) /\
  (gorm.seq db <= gorm.seq (fst (HandleFunc route db w r)))%N.
Proof.
  destruct (gorm_more.statement_state db) as [Hsr Hss].
  destruct route; cbn [HandleFunc].
  - rewrite getUsers_state. unfold Invariant. rewrite Hsr, Hss.
    split; [|split]; [auto | auto | lia].
  - split; [|split].
    + intros K. destruct (createUser_state db w r) as [-> | (u & _ & ->)];
        [exact K | now apply gorm_more.Create_keys].
    + unfold Invariant. rewrite !Forall_forall. intros Inv u Hu.
      apply createUser_new_rows in Hu. destruct Hu; auto.
    + destruct (createUser_state db w r) as [-> | (u & _ & ->)];
        [lia | apply gorm_more.Create_seq].
  - split; [|split].
    + intros K.
      destruct (updateUser_state db w r)
        as [-> | (id & _ & [-> | (u & s & _ & ->)])]; [exact K | | ].
      * now rewrite Hsr.
      * apply gorm_more.Save_keys. now rewrite Hsr.
    + unfold Invariant. rewrite !Forall_forall. intros Inv u Hu.
      apply updateUser_new_rows in Hu.
      destruct Hu as [Hu | [Hu | (stored & Hs & Hu)]]; auto.
      unfold validRow. rewrite Hu. now apply Inv.
    + destruct (updateUser_state db w r)
        as [-> | (id & _ & [-> | (u & s & _ & ->)])]; [lia | lia |].
      rewrite <- Hss at 1. apply gorm_more.Save_seq.
  - split; [|split].
    + intros K. destruct (deleteUser_state db w r) as [-> | (id & _ & ->)];
        [exact K|].
      destruct (gorm_more.Delete_state db id) as [_ [-> | ->]];
        [exact K | now apply gorm_more.keysOK_filter].
    + unfold Invariant. intros Inv.
      destruct (deleteUser_state db w r) as [-> | (id & _ & ->)];
        [exact Inv|].
      destruct (gorm_more.Delete_state db id) as [_ [-> | ->]];
        [exact Inv|].
      rewrite Forall_forall in *. intros u Hu. apply filter_In in Hu.
      now apply Inv.
    + destruct (deleteUser_state db w r) as [-> | (id & _ & ->)]; [lia|].
      destruct (gorm_more.Delete_state db id) as [-> _]. lia.
Qed.

Lemma serve_invariants (calls : list (Route * Request)) : forall db,
  (keysOK (gorm.rows db) -> keysOK (gorm.rows (fst (serve db calls)))) /\
  (Invariant db -> Invariant (fst (serve db calls))) /\
  (gorm.seq db <= gorm.seq (fst (serve db calls)))%N.
Proof.
  induction calls as [|[route r] rest IH]; intros db; cbn [serve].
  - cbn [fst]. split; [|split]; [auto | auto | lia].
  - destruct (handler_keeps route db http.NewRecorder r) as (K1 & I1 & S1).
    destruct (HandleFunc route db http.NewRecorder r) as [db1 w].
    cbn [fst] in *. destruct (IH db1) as (K2 & I2 & S2).
    destruct (serve db1 rest) as [db2 ws]. cbn [fst] in *.
    split; [|split]; [auto | auto | lia].
Qed.

(** X4.  Whatever requests are served, one after the other, the ids of the
    rows stay distinct and non-zero, the rows keep a non-empty valid
    email, and the sequence that numbers the rows never goes back. *)
Theorem serve_keeps (calls : list (Route * Request)) (db : gorm.DB) :
  (keysOK (gorm.rows db) -> keysOK (gorm.rows (fst (serve db calls)))) /\
  (Invariant db -> Invariant (fst (serve db calls))) /\
  (gorm.seq db <= gorm.seq (fst (serve db calls)))%N.
Proof. apply serve_invariants. Qed.

Lemma serve_keeps_witness :
  let calls :=
    [(POST_users, request "" (object [("id", json.Number "1");
                                      ("name", json.Str "Bob");
                                      ("email", json.Str "bob@example.com")]));
     (PUT_users_id, request "1" (object [("name", json.Str "Robert")]));
     (DELETE_users_id, request "1" json.Invalid);
     (GET_users, request "" json.Invalid)] in
  keysOK (gorm.rows (fst (serve annDB calls))) /\
  Invariant (fst (serve annDB calls)).
Proof.
  intros calls. destruct (serve_keeps calls annDB) as (K & I & _).
  split.
  - apply K. split.
    + repeat constructor. intros [].
    + repeat constructor. discriminate.
  - apply I. constructor; [|constructor]. split; [discriminate | reflexivity].
Defined.

(** *** [createUser] *)

Lemma Create_failed db v db1 c res :
  gorm.Create db v = (db1, c, res) ->
  gorm.Error res <> None ->
  gorm.rows db1 = gorm.rows db.
Proof.
  unfold gorm.Create. destruct (gorm_more.statement_state db) as [Hr _].
  destruct (gorm.statement db) as [fails db0]. cbn [snd] in Hr.
  rewrite <- Hr. destruct fails; intros H Hko.
  - now injection H as <- <- <-.
  - eapply gorm_facts.insert_failed; eassumption.
Qed.

Lemma getUsers_healthy db r :
  healthy 1 db ->
  getUsers db http.NewRecorder r
  = (snd (gorm.statement db),
     jsonResponse http.StatusOK (json.ofUsers (gorm.rows db))).
Proof.
  intros H. apply gorm_more.healthy_statement in H. destruct H as [Hf _].
  unfold getUsers, gorm.Find.
  destruct (gorm_more.statement_state db) as [Hr _].
  destruct (gorm.statement db) as [fails db0]. cbn [fst snd] in *.
  subst fails. cbn. now rewrite Hr.
Qed.

(** A 201 answer comes from a [Create] that went through. *)
Lemma createUser_201 db r db1 c :
  createUser db http.NewRecorder r
  = (db1, jsonResponse http.StatusCreated (json.ofUser c)) ->
  exists user res,
    json.Decode (Body r) zeroUser = Some user /\
    Name user <> "" /\ isValidEmail (Email user) = true /\
    gorm.Create db user = (db1, c, res) /\ gorm.Error res = None.
Proof.
  unfold createUser.
  destruct (json.Decode (Body r) zeroUser) as [user|]; [|discriminate].
  destruct (String.eqb (Name user) "") eqn:Hn; [discriminate|].
  destruct (String.eqb (Email user) "") eqn:Hee; [discriminate|].
  destruct (isValidEmail (Email user)) eqn:He; [|discriminate].
  cbn [orb negb].
  destruct (gorm.Create db user) as [[db2 c2] res] eqn:Hc.
  destruct (gorm.Error res) eqn:Hr; [discriminate|].
  remember (json.ofUser c2) as j2 eqn:E2.
  remember (json.ofUser c) as j eqn:E1.
  intros H. injection H as -> H. subst j2 j.
  apply decimal_facts.ofUser_inj in H.
  subst c2. exists user, res.
  apply eqb_empty_false in Hn. auto.
Qed.

(** X5.  [createUser] changes the table only when it answers 201, and then
    by adding the very row it returns and nothing else: the rows are the
    rows that were there and that one, its id finds it, and a GET after
    it lists those rows and that one.  With any other answer (400 or 500)
    the rows are as before.  (Nothing is said of the order of rows.) *)
Theorem createUser_effect (db : gorm.DB) (r : Request) :
  let '(db', w) := createUser db http.NewRecorder r in
  (exists created,
     w = jsonResponse http.StatusCreated (json.ofUser created) /\
     Permutation (gorm.rows db') (created :: gorm.rows db) /\
     gorm.lookup (gorm.rows db') (Z.of_N (ID created)) = Some created /\
     (healthy 1 db' ->
      forall r',
      exists users,
        snd (getUsers db' http.NewRecorder r')
        = jsonResponse http.StatusOK (json.ofUsers users) /\
        Permutation users (created :: gorm.rows db)))
  \/
  (gorm.rows db' = gorm.rows db /\
   (http.Status w = http.StatusBadRequest \/
    http.Status w = http.StatusInternalServerError)).
Proof.
  unfold createUser.
  destruct (json.Decode (Body r) zeroUser) as [user|]; [|right; auto].
  destruct (String.eqb (Name user) ""); [right; auto|].
  destruct (String.eqb (Email user) "" || negb (isValidEmail (Email user)));
    [right; auto|].
  destruct (gorm.Create db user) as [[db1 c] res] eqn:Hc.
  destruct (gorm.Error res) eqn:Hr.
  - right. split; [|auto]. eapply Create_failed; [exact Hc | congruence].
  - left. exists c.
    destruct (gorm_facts.Create_ok _ _ _ _ _ Hc Hr) as (Hrows & _ & _ & Hl).
    assert (Permutation (gorm.rows db1) (c :: gorm.rows db)) as Hp.
    { rewrite Hrows. apply Permutation_sym, Permutation_cons_append. }
    split; [reflexivity|]. split; [exact Hp|]. split.
    + rewrite Hrows. now apply gorm_more.lookup_last.
    + intros Hh r'. exists (gorm.rows db1).
      rewrite (getUsers_healthy _ _ Hh). cbn [snd]. auto.
Qed.

(** X6.  A key that is taken makes [createUser] answer 500 and add nothing,
    for a body that passes the create rules and a store that is up: when the
    body gives the id of a row that exists, and when the body gives none
    and the next value of the sequence is the id of a row (one inserted
    with that id in its body).  In the second case the value is used up:
    the sequence has moved on. *)
Theorem createUser_key_collision db r user :
  json.Decode (Body r) zeroUser = Some user ->
  Name user <> "" ->
  isValidEmail (Email user) = true ->
  gorm.storable user = true ->
  healthy 1 db ->
  let '(db', w) := createUser db http.NewRecorder r in
  (ID user <> 0%N ->
   gorm.lookup (gorm.rows db) (Z.of_N (ID user)) <> None ->
   w = errorResponse "Failed to create user" http.StatusInternalServerError
   /\ gorm.rows db' = gorm.rows db /\ gorm.seq db' = gorm.seq db) /\
  (ID user = 0%N ->
   gorm.lookup (gorm.rows db) (Z.of_N (gorm.seq db + 1)) <> None ->
   (gorm.seq db + 1 <= gorm.maxInt8)%N ->
   w = errorResponse "Failed to create user" http.StatusInternalServerError
   /\ gorm.rows db' = gorm.rows db
   /\ gorm.seq db' = (gorm.seq db + 1)%N).
Proof.
  intros Hd Hn He Hst Hh.
  rewrite (createUser_accepted db r user Hd Hn He).
  unfold gorm.Create, gorm.insert.
  apply gorm_more.healthy_statement in Hh. destruct Hh as [Hf _].
  destruct (gorm_more.statement_state db) as [Hr Hs].
  destruct (gorm.statement db) as [fails db0]. cbn [fst snd] in *.
  subst fails. rewrite Hst, <- Hr, <- Hs. cbn [negb].
  destruct (N.eqb_spec (ID user) 0) as [Hz | Hz].
  - destruct (gorm.maxInt8 <? gorm.seq db0 + 1)%N eqn:Hm;
      [|destruct (gorm.lookup (gorm.rows db0) (Z.of_N (gorm.seq db0 + 1)))
          eqn:Hl];
      cbn [gorm.Error gorm.failed gorm.ok gorm.rows gorm.seq gorm.withSeq
           gorm.withRows];
      (split; [intros C; now contradiction C|]); intros _ Hl' Hmax.
    + apply N.ltb_lt in Hm. lia.
    + auto.
    + now contradiction Hl'.
  - destruct (gorm.maxInt8 <? ID user)%N;
      [|destruct (gorm.lookup (gorm.rows db0) (Z.of_N (ID user))) eqn:Hl];
      cbn [gorm.Error gorm.failed gorm.ok gorm.rows gorm.seq gorm.withSeq
           gorm.withRows];
      (split; [|intros C; now contradiction Hz]); intros _ Hl'.
    + auto.
    + auto.
    + now contradiction Hl'.
Qed.

Lemma createUser_key_collision_witness :
  let taken := {| gorm.rows := [ann]; gorm.seq := 0; gorm.faults := [] |} in
  let body := object [("name", json.Str "Bob");
                      ("email", json.Str "bob@example.com")] in
  let '(db', w) := createUser taken http.NewRecorder (request "" body) in
  w = errorResponse "Failed to create user" http.StatusInternalServerError /\
  gorm.rows db' = [ann] /\ gorm.seq db' = 1%N.
Proof.
  intros taken body.
  pose proof (createUser_key_collision taken (request "" body)
                {| ID := 0; Name := "Bob"; Email := "bob@example.com" |}
                eq_refl) as H.
  destruct (createUser taken http.NewRecorder (request "" body)) as [db' w].
  destruct H as [_ H]; [discriminate | reflexivity | reflexivity
                       | reflexivity |].
  apply H; [reflexivity | discriminate | discriminate].
Defined.

(** X7.  The ids that the sequence hands out only go up: of two POSTs whose
    bodies give no id and that are both answered 201, the later one gets
    the larger id, whatever requests are served in between, deletions
    included. *)
Theorem sequence_ids_increase db r1 u1 db1 c1 calls r2 u2 db3 c2 :
  json.Decode (Body r1) zeroUser = Some u1 -> ID u1 = 0%N ->
  createUser db http.NewRecorder r1
  = (db1, jsonResponse http.StatusCreated (json.ofUser c1)) ->
  json.Decode (Body r2) zeroUser = Some u2 -> ID u2 = 0%N ->
  createUser (fst (serve db1 calls)) http.NewRecorder r2
  = (db3, jsonResponse http.StatusCreated (json.ofUser c2)) ->
  (ID c1 < ID c2)%N.
Proof.
  intros Hd1 Hz1 H1 Hd2 Hz2 H2.
  apply createUser_201 in H1.
  destruct H1 as (u1' & res1 & Hd1' & _ & _ & Hc1 & Hok1).
  apply createUser_201 in H2.
  destruct H2 as (u2' & res2 & Hd2' & _ & _ & Hc2 & Hok2).
  assert (u1' = u1) by congruence. assert (u2' = u2) by congruence. subst.
  destruct (gorm_more.Create_numbered _ _ _ _ _ Hc1 Hok1 Hz1) as [E1 S1].
  destruct (gorm_more.Create_numbered _ _ _ _ _ Hc2 Hok2 Hz2) as [E2 _].
  destruct (serve_invariants calls db1) as (_ & _ & Hseq). lia.
Qed.

Lemma sequence_ids_increase_witness :
  let body := object [("name", json.Str "Ann");
                      ("email", json.Str "ann@example.com")] in
  let calls := [(DELETE_users_id, request "1" json.Invalid)] in
  let ann2 := {| ID := 2; Name := "Ann"; Email := "ann@example.com" |} in
  createUser (fst (serve annDB calls)) http.NewRecorder (request "" body)
  = ({| gorm.rows := [ann2]; gorm.seq := 2; gorm.faults := [] |},
     jsonResponse http.StatusCreated (json.ofUser ann2)) /\
  (ID ann < ID ann2)%N.
Proof.
  intros body calls ann2. split; [reflexivity|].
  apply (sequence_ids_increase emptyDB (request "" body)
           {| ID := 0; Name := "Ann"; Email := "ann@example.com" |}
           annDB ann calls (request "" body)
           {| ID := 0; Name := "Ann"; Email := "ann@example.com" |}
           {| gorm.rows := [ann2]; gorm.seq := 2; gorm.faults := [] |} ann2);
    reflexivity.
Defined.

(** *** [updateUser] *)

Lemma First_healthy db dest id user :
  fst (gorm.statement db) = false ->
  gorm.lookup (gorm.rows db) id = Some user ->
  gorm.First db dest id = (snd (gorm.statement db), user, gorm.ok 1).
Proof.
  intros Hf Hl. unfold gorm.First.
  destruct (gorm_more.statement_state db) as [Hr _].
  destruct (gorm.statement db) as [fails db0]. cbn [fst snd] in *.
  subst fails. now rewrite Hr, Hl.
Qed.

Lemma lookup_id l id u :
  gorm.lookup l id = Some u -> Z.of_N (ID u) = id /\ In u l.
Proof.
  intros H. apply gorm_facts.lookup_In in H. destruct H as [Hin Hid].
  unfold gorm.hasId in Hid. apply Z.eqb_eq in Hid. auto.
Qed.

(** X8.  [updateUser] neither adds nor removes a row, never changes an id
    and does not move the sequence: the ids of the rows are the same, as
    many times each, and the rows whose id is not the one of the route are
    the same rows.  (For a table whose ids are non-zero; nothing is said
    of the order of rows.) *)
Theorem updateUser_touches_one_row (db : gorm.DB) (r : Request) :
  Forall (fun u => ID u <> 0%N) (gorm.rows db) ->
  let db' := fst (updateUser db http.NewRecorder r) in
  Permutation (map ID (gorm.rows db')) (map ID (gorm.rows db)) /\
  gorm.seq db' = gorm.seq db /\
  forall id u,
    strconv.Atoi (Vars r "id") = Some id ->
    Z.of_N (ID u) <> id ->
    (In u (gorm.rows db') <-> In u (gorm.rows db)).
Proof.
  intros Hnz. cbv zeta.
  destruct (gorm_more.statement_state db) as [Hr Hs].
  destruct (updateUser_state db http.NewRecorder r)
    as [-> | (id & Ha & [-> | (user & supplied & Hl & ->)])].
  - split; [reflexivity|]. split; [reflexivity|]. tauto.
  - rewrite Hr, Hs. split; [reflexivity|]. split; [reflexivity|]. tauto.
  - destruct (lookup_id _ _ _ Hl) as [Hid Hin].
    rewrite Forall_forall in Hnz.
    rewrite gorm_more.Save_there.
    + destruct (gorm_more.statement_state (snd (gorm.statement db)))
        as [Hr' Hs'].
      destruct (fst (gorm.statement (snd (gorm.statement db)))
                || negb (gorm.storable (merge user supplied)));
        cbn [fst gorm.rows gorm.seq gorm.withRows];
        rewrite ?Hr', ?Hs', ?Hr, ?Hs.
      * split; [reflexivity|]. split; [reflexivity|]. tauto.
      * split; [now rewrite gorm_more.map_ID_replace|].
        split; [reflexivity|].
        intros id' u Ha' Hne.
        assert (forall x, ID x <> ID user ->
                  gorm.replace (merge user supplied) x = x) as Hkeep.
        { intros x Hx. unfold gorm.replace. cbn [ID merge].
          now destruct (N.eqb_spec (ID x) (ID user)). }
        assert (ID u <> ID user) as Hu.
        { intros E. apply Hne. rewrite E. congruence. }
        rewrite in_map_iff. split.
        -- intros (x & Hx & Hxin).
           destruct (N.eq_dec (ID x) (ID user)) as [E | E].
           ++ exfalso. apply Hu. rewrite <- Hx, gorm_more.ID_replace.
              exact E.
           ++ rewrite (Hkeep x E) in Hx. now subst x.
        -- intros Hu'. exists u. split; [now apply Hkeep | exact Hu'].
    + cbn [ID merge]. now apply Hnz.
    + cbn [ID merge]. rewrite Hr, Hid, Hl. discriminate.
Qed.

Lemma updateUser_touches_one_row_witness :
  let bob2 := {| ID := 2; Name := "Bob"; Email := "bob@example.com" |} in
  let two := {| gorm.rows := [ann; bob2]; gorm.seq := 2;
                gorm.faults := [] |} in
  In bob2
    (gorm.rows (fst (updateUser two http.NewRecorder
                       (request "1" (object [("name", json.Str "Anna")]))))).
Proof.
  intros bob2 two.
  apply (updateUser_touches_one_row two
           (request "1" (object [("name", json.Str "Anna")])))
    with (id := 1%Z).
  - repeat constructor; discriminate.
  - reflexivity.
  - discriminate.
  - right. now left.
Defined.

(** X9.  [updateUser] never takes an id from the body: two bodies that
    decode to the same name and email get the same answer and leave the
    same store, whatever [id] either of them carries. *)
Theorem updateUser_ignores_body_id db w r1 r2 s1 s2 :
  Vars r1 "id" = Vars r2 "id" ->
  json.Decode (Body r1) zeroUser = Some s1 ->
  json.Decode (Body r2) zeroUser = Some s2 ->
  Name s1 = Name s2 -> Email s1 = Email s2 ->
  updateUser db w r1 = updateUser db w r2.
Proof.
  intros Hv H1 H2 Hn He. rewrite !updateUser_eq, Hv, H1, H2.
  assert (forall user, merge user s1 = merge user s2) as Hm.
  { intros user. unfold merge. now rewrite Hn, He. }
  destruct (strconv.Atoi (Vars r2 "id")) as [id|]; [|reflexivity].
  destruct (gorm.First db zeroUser id) as [[db1 user] result].
  destruct (gorm.Error result); [reflexivity|].
  now rewrite Hn, He, Hm.
Qed.

Lemma updateUser_ignores_body_id_witness :
  updateUser annDB http.NewRecorder
    (request "1" (object [("id", json.Number "7"); ("name", json.Str "Bob")]))
  = updateUser annDB http.NewRecorder
      (request "1" (object [("name", json.Str "Bob")])).
Proof.
  apply (updateUser_ignores_body_id annDB http.NewRecorder _ _
           {| ID := 7; Name := "Bob"; Email := "" |}
           {| ID := 0; Name := "Bob"; Email := "" |}); reflexivity.
Defined.

(** An update that supplies nothing, on a store that is up. *)
Lemma updateUser_noop db r id user supplied :
  strconv.Atoi (Vars r "id") = Some id ->
  gorm.lookup (gorm.rows db) id = Some user ->
  keysOK (gorm.rows db) ->
  gorm.storable user = true ->
  healthy 2 db ->
  json.Decode (Body r) zeroUser = Some supplied ->
  Name supplied = "" -> Email supplied = "" ->
  updateUser db http.NewRecorder r
  = (gorm.withRows (snd (gorm.statement (snd (gorm.statement db))))
       (gorm.rows db),
     jsonResponse http.StatusOK (json.ofUser user)).
Proof.
  intros Ha Hl [Hnd Hnz] Hst Hh Hd Hn He.
  apply gorm_more.healthy_statement in Hh. destruct Hh as [Hf1 Hh].
  apply gorm_more.healthy_statement in Hh. destruct Hh as [Hf2 _].
  destruct (gorm_more.statement_state db) as [Hr _].
  destruct (lookup_id _ _ _ Hl) as [Hid Hin].
  rewrite Forall_forall in Hnz.
  assert (merge user supplied = user) as Hm.
  { unfold merge. rewrite Hn, He. now destruct user. }
  rewrite updateUser_eq, Ha, (First_healthy _ _ _ _ Hf1 Hl), Hd, Hn, He.
  cbn [gorm.Error gorm.ok String.eqb negb andb]. rewrite Hm.
  rewrite gorm_more.Save_there.
  - rewrite Hf2, Hst. cbn [orb negb]. rewrite Hr.
    rewrite gorm_more.replace_same; [reflexivity | exact Hnd |].
    now rewrite Hid.
  - now apply Hnz.
  - rewrite Hr, Hid, Hl. discriminate.
Qed.

(** X10.  A PUT that supplies neither a name nor an email (an empty
    object, say) on an existing user is answered 200 with the stored
    record and changes no row, when the store is up. *)
Theorem updateUser_empty_body db r id user supplied :
  strconv.Atoi (Vars r "id") = Some id ->
  gorm.lookup (gorm.rows db) id = Some user ->
  keysOK (gorm.rows db) ->
  gorm.storable user = true ->
  healthy 2 db ->
  json.Decode (Body r) zeroUser = Some supplied ->
  Name supplied = "" -> Email supplied = "" ->
  let '(db', w) := updateUser db http.NewRecorder r in
  w = jsonResponse http.StatusOK (json.ofUser user) /\
  gorm.rows db' = gorm.rows db /\
  gorm.seq db' = gorm.seq db.
Proof.
  intros Ha Hl K Hst Hh Hd Hn He.
  rewrite (updateUser_noop db r id user supplied Ha Hl K Hst Hh Hd Hn He).
  split; [reflexivity|]. split; [reflexivity|].
  cbn [gorm.seq gorm.withRows].
  destruct (gorm_more.statement_state db) as [_ Hs].
  destruct (gorm_more.statement_state (snd (gorm.statement db))) as [_ Hs'].
  congruence.
Qed.

Lemma updateUser_empty_body_witness :
  updateUser annDB http.NewRecorder (request "1" (object []))
  = (annDB, jsonResponse http.StatusOK (json.ofUser ann)).
Proof.
  pose proof (updateUser_empty_body annDB (request "1" (object []))
                1%Z ann zeroUser eq_refl eq_refl) as H.
  destruct (updateUser annDB http.NewRecorder (request "1" (object [])))
    as [db' w] eqn:E.
  destruct H as (-> & _ & _); try reflexivity.
  - split; repeat constructor; [intros [] | discriminate].
  - now vm_compute in E.
Defined.

(** X11.  [updateUser] answers 200, 400 or 404 and nothing else: it has no
    500.  When the store cannot carry out the lookup, the answer is 404
    "User not found", whether or not the user is there. *)
Theorem updateUser_statuses (db : gorm.DB) (r : Request) :
  let w := snd (updateUser db http.NewRecorder r) in
  In (http.Status w)
     [http.StatusOK; http.StatusBadRequest; http.StatusNotFound] /\
  (forall id,
     strconv.Atoi (Vars r "id") = Some id ->
     fst (gorm.statement db) = true ->
     w = errorResponse "User not found" http.StatusNotFound).
Proof.
  cbv zeta. rewrite updateUser_eq.
  destruct (strconv.Atoi (Vars r "id")) as [id|].
  2:{ split; [cbn; auto | discriminate]. }
  unfold gorm.First.
  destruct (gorm.statement db) as [fails db0]. cbn [fst].
  destruct fails.
  { split; [cbn; auto | reflexivity]. }
  split; [|discriminate].
  destruct (gorm.lookup (gorm.rows db0) id) as [user|]; [|cbn; auto].
  cbn [gorm.Error gorm.ok].
  destruct (json.Decode (Body r) zeroUser) as [supplied|]; [|cbn; auto].
  destruct (negb (String.eqb (Name supplied) "")
            && (String.length (Name supplied) <? 3)%nat); [cbn; auto|].
  destruct (negb (String.eqb (Email supplied) "")
            && negb (isValidEmail (Email supplied))); [cbn; auto|].
  destruct (gorm.Save db0 (merge user supplied)) as [[db2 saved] res].
  cbn. auto.
Qed.

Lemma updateUser_statuses_witness :
  let down := {| gorm.rows := [ann]; gorm.seq := 1; gorm.faults := [true] |} in
  snd (updateUser down http.NewRecorder
         (request "1" (object [("name", json.Str "Bob")])))
  = errorResponse "User not found" http.StatusNotFound.
Proof.
  intros down.
  apply (updateUser_statuses down
           (request "1" (object [("name", json.Str "Bob")]))) with (id := 1%Z);
    reflexivity.
Defined.

(** *** [deleteUser] *)

(** X12.  After a DELETE that is answered 204 the id finds no row; a
    second DELETE on it changes no row (and is answered 204 again when the
    store is up), and a PUT on it is answered 404. *)
Theorem deleteUser_is_final db r id db1 w1 :
  strconv.Atoi (Vars r "id") = Some id ->
  deleteUser db http.NewRecorder r = (db1, w1) ->
  http.Status w1 = http.StatusNoContent ->
  gorm.lookup (gorm.rows db1) id = None /\
  forall r2,
    Vars r2 "id" = Vars r "id" ->
    gorm.rows (fst (deleteUser db1 http.NewRecorder r2)) = gorm.rows db1 /\
    (healthy 1 db1 ->
     snd (deleteUser db1 http.NewRecorder r2)
     = emptyResponse http.StatusNoContent) /\
    http.Status (snd (updateUser db1 http.NewRecorder r2))
    = http.StatusNotFound.
Proof.
  intros Ha Hd Hs. unfold deleteUser in Hd. rewrite Ha in Hd.
  destruct (gorm.Delete db id) as [db1' res] eqn:Hdel.
  destruct (gorm.Error res) eqn:Hok.
  { injection Hd as <- <-. discriminate Hs. }
  injection Hd as <- <-.
  assert (gorm.lookup (gorm.rows db1') id = None) as Hl.
  { rewrite (gorm_facts.Delete_ok _ _ _ _ Hdel Hok).
    apply gorm_more.lookup_filter. }
  split; [exact Hl|]. intros r2 Hv. split; [|split].
  - destruct (deleteUser_state db1' http.NewRecorder r2)
      as [-> | (id' & Ha' & ->)]; [reflexivity|].
    assert (id' = id) by congruence. subst id'.
    destruct (gorm_more.Delete_state db1' id) as [_ [-> | ->]];
      [reflexivity | now apply gorm_facts.filter_absent].
  - intros Hh. apply gorm_more.healthy_statement in Hh.
    destruct Hh as [Hf _].
    unfold deleteUser, gorm.Delete. rewrite Hv, Ha.
    destruct (gorm.statement db1') as [fails db2]. cbn [fst] in Hf.
    now subst fails.
  - rewrite updateUser_eq, Hv, Ha.
    pose proof (gorm_facts.First_absent db1' zeroUser id Hl) as Hf.
    destruct (gorm.First db1' zeroUser id) as [[db2 user] result].
    destruct Hf as [_ Hr].
    destruct (gorm.Error result); [reflexivity | now contradiction Hr].
Qed.

Lemma deleteUser_is_final_witness :
  http.Status
    (snd (updateUser {| gorm.rows := []; gorm.seq := 1; gorm.faults := [] |}
            http.NewRecorder
            (request "1" (object [("name", json.Str "Bob")]))))
  = http.StatusNotFound.
Proof.
  destruct (deleteUser_is_final annDB (request "1" json.Invalid) 1%Z
              {| gorm.rows := []; gorm.seq := 1; gorm.faults := [] |}
              (emptyResponse http.StatusNoContent)
              eq_refl eq_refl eq_refl) as [_ H].
  apply (H (request "1" (object [("name", json.Str "Bob")]))).
  reflexivity.
Defined.

(** *** All four handlers *)

Lemma Answer_error message code :
  In code [http.StatusBadRequest; http.StatusNotFound;
           http.StatusInternalServerError] ->
  Answer (errorResponse message code).
Proof.
  intros H. apply (AnError _ message); [reflexivity | exact H | reflexivity
                                        | reflexivity].
Qed.

Lemma Answer_json code v :
  In code [http.StatusOK; http.StatusCreated] ->
  Answer (jsonResponse code v).
Proof.
  intros H. apply (AJSON _ v); [reflexivity | exact H | reflexivity].
Qed.

(** X13.  Every answer of the four handlers is of one of three kinds: an
    error with status 400, 404 or 500, sent as [text/plain] with one line
    of the form [{"error": "..."}]; a JSON value with status 200 or 201,
    sent as [application/json]; or 204 with no body and no content type. *)
Theorem every_answer (route : Route) (db : gorm.DB) (r : Request) :
  Answer (snd (HandleFunc route db http.NewRecorder r)).
Proof.
  assert (forall m, Answer (errorResponse m http.StatusBadRequest)) as E400.
  { intros m. apply Answer_error. cbn; auto. }
  assert (forall m, Answer (errorResponse m http.StatusNotFound)) as E404.
  { intros m. apply Answer_error. cbn; auto. }
  assert (forall m, Answer (errorResponse m http.StatusInternalServerError))
    as E500.
  { intros m. apply Answer_error. cbn; auto. }
  assert (forall v, Answer (jsonResponse http.StatusOK v)) as J200.
  { intros v. apply Answer_json. cbn; auto. }
  assert (forall v, Answer (jsonResponse http.StatusCreated v)) as J201.
  { intros v. apply Answer_json. cbn; auto. }
  destruct route; cbn [HandleFunc].
  - unfold getUsers.
    destruct (gorm.Find db) as [[db1 users] res].
    destruct (gorm.Error res); [apply E500 | apply J200].
  - unfold createUser.
    destruct (json.Decode (Body r) zeroUser) as [user|]; [|apply E400].
    destruct (String.eqb (Name user) ""); [apply E400|].
    destruct (String.eqb (Email user) "" || negb (isValidEmail (Email user)));
      [apply E400|].
    destruct (gorm.Create db user) as [[db1 c] res].
    destruct (gorm.Error res); [apply E500 | apply J201].
  - rewrite updateUser_eq.
    destruct (strconv.Atoi (Vars r "id")) as [id|]; [|apply E400].
    destruct (gorm.First db zeroUser id) as [[db1 user] result].
    destruct (gorm.Error result); [apply E404|].
    destruct (json.Decode (Body r) zeroUser) as [supplied|]; [|apply E400].
    destruct (negb (String.eqb (Name supplied) "")
              && (String.length (Name supplied) <? 3)%nat); [apply E400|].
    destruct (negb (String.eqb (Email supplied) "")
              && negb (isValidEmail (Email supplied))); [apply E400|].
    destruct (gorm.Save db1 (merge user supplied)) as [[db2 saved] res].
    apply J200.
  - unfold deleteUser.
    destruct (strconv.Atoi (Vars r "id")) as [id|]; [|apply E400].
    destruct (gorm.Delete db id) as [db1 res].
    destruct (gorm.Error res); [apply E500|].
    apply ANoContent; reflexivity.
Qed.

(** *** A created user, fetched again *)

Lemma Create_ok_bounds db v db1 c res :
  gorm.Create db v = (db1, c, res) ->
  gorm.Error res = None ->
  gorm.storable c = true /\ (ID c <= gorm.maxInt8)%N.
Proof.
  unfold gorm.Create, gorm.insert.
  destruct (gorm_more.statement_state db) as [_ Hs].
  destruct (gorm.statement db) as [fails db0].
  destruct fails; intros H Hok; [injection H as <- <- <-; discriminate|].
  destruct (gorm.storable v) eqn:Hst; cbn [negb] in H;
    [|injection H as <- <- <-; discriminate].
  destruct (ID v =? 0)%N.
  - destruct (gorm.maxInt8 <? gorm.seq db0 + 1)%N eqn:Hm;
      [injection H as <- <- <-; discriminate|].
    destruct (gorm.lookup (gorm.rows db0) (Z.of_N (gorm.seq db0 + 1)));
      injection H as <- <- <-; [discriminate|].
    apply N.ltb_ge in Hm. split; [exact Hst | exact Hm].
  - destruct (gorm.maxInt8 <? ID v)%N eqn:Hm;
      [injection H as <- <- <-; discriminate|].
    destruct (gorm.lookup (gorm.rows db0) (Z.of_N (ID v)));
      injection H as <- <- <-; [discriminate|].
    apply N.ltb_ge in Hm. split; [exact Hst | exact Hm].
Qed.

(** X14.  The id of a 201 answer leads back to the user: a PUT on that id
    (written in decimal, as the answer has it) with an empty object is
    answered 200 with the very user that the POST returned, and changes
    no row, when the store is up and the ids were distinct and non-zero
    before. *)
Theorem create_then_empty_update db r db1 c :
  keysOK (gorm.rows db) ->
  createUser db http.NewRecorder r
  = (db1, jsonResponse http.StatusCreated (json.ofUser c)) ->
  healthy 2 db1 ->
  let '(db2, w) :=
    updateUser db1 http.NewRecorder
      (request (json.decimal (ID c)) (object [])) in
  w = jsonResponse http.StatusOK (json.ofUser c) /\
  gorm.rows db2 = gorm.rows db1.
Proof.
  intros K H Hh. apply createUser_201 in H.
  destruct H as (user & res & _ & _ & _ & Hc & Hok).
  destruct (gorm_facts.Create_ok _ _ _ _ _ Hc Hok) as (Hrows & _ & Hnz & Hl).
  destruct (Create_ok_bounds _ _ _ _ _ Hc Hok) as [Hst Hmax].
  assert (strconv.Atoi
            (Vars (request (json.decimal (ID c)) (object [])) "id")
          = Some (Z.of_N (ID c))) as Ha.
  { cbn [Vars request]. change (String.eqb "id" "id") with true.
    apply decimal_facts.Atoi_decimal.
    unfold gorm.maxInt8 in Hmax. unfold strconv.maxInt. lia. }
  rewrite (updateUser_noop db1 _ (Z.of_N (ID c)) c zeroUser Ha).
  - split; reflexivity.
  - rewrite Hrows. now apply gorm_more.lookup_last.
  - rewrite Hrows. now apply gorm_more.keysOK_last.
  - exact Hst.
  - exact Hh.
  - reflexivity.
  - reflexivity.
  - reflexivity.
Qed.

Lemma create_then_empty_update_witness :
  updateUser annDB http.NewRecorder (request "1" (object []))
  = (annDB, jsonResponse http.StatusOK (json.ofUser ann)).
Proof.
  pose proof (create_then_empty_update emptyDB
                (request "" (object [("name", json.Str "Ann");
                                     ("email", json.Str "ann@example.com")]))
                annDB ann) as H.
  change (json.decimal (ID ann)) with "1" in H.
  destruct (updateUser annDB http.NewRecorder (request "1" (object [])))
    as [db2 w] eqn:E.
  destruct H as [-> _]; try reflexivity.
  - split; constructor.
  - now vm_compute in E.
Defined.

(* ================================================================== *)
(** * Further properties: the two revisions *)
(* ================================================================== *)

Module json_more.
Import json.

Lemma setField_track u1 u2 key v u1' :
  setField u1 key v = Some u1' ->
  exists u2',
    setField u2 key v = Some u2' /\
    tracks ID u1 u2 u1' u2' /\ tracks Name u1 u2 u1' u2' /\
    tracks Email u1 u2 u1' u2'.
Proof.
  unfold setField, tracks. intros H.
  destruct (fieldOf key) as [[ | | ]|]; destruct v;
    try discriminate H;
    try (injection H as <-; eexists; split; [reflexivity|]; cbn; tauto).
  destruct (parseUint literal); [|discriminate H].
  injection H as <-. eexists. split; [reflexivity|]. cbn. tauto.
Qed.

Lemma setFields_track members : forall u1 u2 u1',
  setFields u1 members = Some u1' ->
  exists u2',
    setFields u2 members = Some u2' /\
    tracks ID u1 u2 u1' u2' /\ tracks Name u1 u2 u1' u2' /\
    tracks Email u1 u2 u1' u2'.
Proof.
  induction members as [|[key v] rest IH]; intros u1 u2 u1' H; simpl in H.
  - injection H as <-. exists u2. unfold tracks. simpl. tauto.
  - destruct (setField u1 key v) as [x1|] eqn:H1; [|discriminate H].
    destruct (setField_track u1 u2 key v x1 H1) as (x2 & H2 & Ti & Tn & Te).
    destruct (IH x1 x2 u1' H) as (u2' & H2' & Ti' & Tn' & Te').
    exists u2'. simpl. rewrite H2. split; [exact H2'|].
    unfold tracks in *. repeat split; intuition congruence.
Qed.

End json_more.

(** X15.  The validation is all that [createUser] adds to the earlier
    revision: a body that passes the create rules is handled as before,
    and a body that fails them leaves the store alone, where the earlier
    revision handed every body that decodes to the store.  So the earlier
    revision did not keep the emails of the rows valid. *)
Theorem createUser_adds_the_validation
  (db : gorm.DB) (w : http.ResponseWriter) (r : Request) :
  (~ createRejected r -> createUser db w r = rev0.createUser db w r) /\
  (createRejected r -> fst (createUser db w r) = db) /\
  (forall user,
     json.Decode (Body r) zeroUser = Some user ->
     fst (rev0.createUser db w r) = fst (fst (gorm.Create db user))) /\
  (exists db0 r0,
     Invariant db0 /\
     ~ Invariant (fst (rev0.createUser db0 http.NewRecorder r0))).
Proof.
  unfold createRejected, createUser, rev0.createUser.
  split; [|split; [|split]].
  - destruct (json.Decode (Body r) zeroUser) as [user|]; [|tauto].
    intros H.
    destruct (String.eqb (Name user) "") eqn:Hn.
    { contradiction H. left. now apply eqb_empty_true. }
    destruct (String.eqb (Email user) "") eqn:He.
    { contradiction H. right. left. now apply eqb_empty_true. }
    destruct (isValidEmail (Email user)) eqn:Hv; [reflexivity|].
    contradiction H. auto.
  - destruct (json.Decode (Body r) zeroUser) as [user|]; [|reflexivity].
    intros [H | [H | H]].
    + apply eqb_empty_true in H. now rewrite H.
    + apply eqb_empty_true in H.
      destruct (String.eqb (Name user) ""); [reflexivity|]. now rewrite H.
    + destruct (String.eqb (Name user) ""); [reflexivity|].
      now rewrite H, orb_true_r.
  - intros user ->.
    destruct (gorm.Create db user) as [[db1 c] res].
    destruct (gorm.Error res); reflexivity.
  - exists emptyDB, (request "" (object [("name", json.Str "Ann")])).
    split; [constructor|].
    intros C. cbn in C. inversion C as [|? ? [Hne _] _]; subst.
    now contradiction Hne.
Qed.

Lemma createUser_adds_the_validation_witness :
  createUser emptyDB http.NewRecorder
    (request "" (object [("name", json.Str "Ann");
                         ("email", json.Str "ann@example.com")]))
  = rev0.createUser emptyDB http.NewRecorder
      (request "" (object [("name", json.Str "Ann");
                           ("email", json.Str "ann@example.com")])).
Proof.
  apply (createUser_adds_the_validation emptyDB http.NewRecorder
           (request "" (object [("name", json.Str "Ann");
                                ("email", json.Str "ann@example.com")]))).
  unfold createRejected. cbn. intros [C | [C | C]]; discriminate C.
Defined.

(** What the earlier [updateUser] decodes is the merged record, for a body
    without an id whose name and email are each omitted or non-empty. *)
Lemma Decode_into_stored members user supplied :
  json.Decode (object members) zeroUser = Some supplied ->
  omits members json.F_id ->
  Name supplied <> "" \/ omits members json.F_name ->
  Email supplied <> "" \/ omits members json.F_email ->
  json.Decode (object members) user = Some (merge user supplied).
Proof.
  unfold object. cbn [json.Decode]. intros Hd Hi Hn He.
  destruct (json_more.setFields_track members zeroUser user supplied Hd)
    as (u' & Hu & Ti & Tn & Te).
  destruct (json_facts.setFields_omitted members zeroUser supplied Hd)
    as (_ & Hon & Hoe).
  destruct (json_facts.setFields_omitted members user u' Hu)
    as (Hoi' & Hon' & Hoe').
  rewrite Hu. f_equal. unfold merge, tracks in *.
  destruct u' as [i n e]. cbn [ID Name Email] in *. f_equal.
  - now apply Hoi'.
  - destruct Hn as [Hn | Hn].
    + apply eqb_empty_false in Hn. rewrite Hn.
      destruct Tn as [Tn | [Tn _]]; [congruence|].
      apply eqb_empty_false in Hn. now contradiction Hn.
    + rewrite (Hon Hn). cbn. now apply Hon'.
  - destruct He as [He | He].
    + apply eqb_empty_false in He. rewrite He.
      destruct Te as [Te | [Te _]]; [congruence|].
      apply eqb_empty_false in He. now contradiction He.
    + rewrite (Hoe He). cbn. now apply Hoe'.
Qed.

(** X16.  On a body that is an object without an [id], whose name and
    email are each left out or non-empty, and that passes the update
    rules, [updateUser] does what the earlier revision did.  (The two
    differ on a body with an [id], on an empty name or email, and on a
    name or email that the update rules refuse.) *)
Theorem updateUser_agrees_with_rev0 db w r members supplied :
  Body r = object members ->
  json.Decode (Body r) zeroUser = Some supplied ->
  omits members json.F_id ->
  Name supplied <> "" \/ omits members json.F_name ->
  Email supplied <> "" \/ omits members json.F_email ->
  ~ shortName supplied -> ~ badEmail supplied ->
  updateUser db w r = rev0.updateUser db w r.
Proof.
  intros Hb Hd Hi Hn He Hs Hbe.
  rewrite updateUser_eq. unfold rev0.updateUser. rewrite Hd.
  destruct (strconv.Atoi (Vars r "id")) as [id|]; [|reflexivity].
  destruct (gorm.First db zeroUser id) as [[db1 user] result].
  destruct (gorm.Error result); [reflexivity|].
  rewrite Hb in *.
  rewrite (Decode_into_stored members user supplied Hd Hi Hn He).
  destruct (negb (String.eqb (Name supplied) "")
            && (String.length (Name supplied) <? 3)%nat) eqn:E1.
  { contradiction Hs. now apply shortName_iff. }
  destruct (negb (String.eqb (Email supplied) "")
            && negb (isValidEmail (Email supplied))) eqn:E2.
  { contradiction Hbe. now apply badEmail_iff. }
  reflexivity.
Qed.

Lemma updateUser_agrees_with_rev0_witness :
  updateUser annDB http.NewRecorder
    (request "1" (object [("name", json.Str "Bob")]))
  = rev0.updateUser annDB http.NewRecorder
      (request "1" (object [("name", json.Str "Bob")])).
Proof.
  apply (updateUser_agrees_with_rev0 annDB http.NewRecorder
           (request "1" (object [("name", json.Str "Bob")]))
           [("name", json.Str "Bob")]
           {| ID := 0; Name := "Bob"; Email := "" |});
    try reflexivity.
  - intros key v [H | []]. injection H as <- <-. discriminate.
  - left. discriminate.
  - right. intros key v [H | []]. injection H as <- <-. discriminate.
  - intros [_ C]. cbn in C. lia.
  - intros [C _]. now contradiction C.
Defined.
